(** * CPing: the asynchronous ICMP probe engine

    A shallow embedding of

    - [checksum16]                       (src/util.cpp),
    - the Echo Request built by [ping_once_engine] and the promise table,
      listener dispatch, life cycle and probe protocol of the engine
      (src/engine.cpp for Windows, src/engine_linux.cpp for Linux).

    Machine integers are [Z] with their wrap-around written out, buffers are
    [list byte], the waiter table is a [gmap], promises and futures are
    handles into a store of shared states.  Host words are little-endian, as
    on the x86/x64/ARM targets the two engines are built for. *)

From Stdlib Require Import ZArith List Lia.
From Stdlib.Strings Require Import Byte.
From stdpp Require Import gmap strings list.

Local Open Scope Z_scope.

(* ===================================================================== *)
(** * Part I: definitions *)
(* ===================================================================== *)

(** ** Bytes and fixed-width integers *)

Definition u8 (b : byte) : Z := Z.of_N (Byte.to_N b).

Definition byte_of_Z (z : Z) : byte :=
  default x00 (Byte.of_N (Z.to_N (z mod 256))).

Definition wrap16 (z : Z) : Z := z mod 65536.
Definition wrap32 (z : Z) : Z := z mod 4294967296.

(** [*p] for a [const uint16_t* p] pointing at bytes [b0 b1]. *)
Definition load16 (b0 b1 : byte) : Z := u8 b0 + 256 * u8 b1.

(** The bytes a [uint16_t] occupies in memory. *)
Definition bytes16 (v : Z) : list byte :=
  [byte_of_Z v; byte_of_Z (v / 256)].

(** The [n] bytes an unsigned integer occupies in memory, low byte first. *)
Fixpoint le_bytes (n : nat) (v : Z) : list byte :=
  match n with
  | O => []
  | S n' => byte_of_Z v :: le_bytes n' (v / 256)
  end.

(** [memcpy(buf + off, src, length src)], for a copy that stays inside
    [buf]; the callers size their vectors so that it does. *)
Definition memcpy (buf : list byte) (off : nat) (src : list byte) : list byte :=
  take off buf ++ src ++ drop (off + length src) buf.

Definition htons (x : Z) : Z := (x mod 256) * 256 + (x / 256) mod 256.
Definition ntohs (x : Z) : Z := htons x.

(** ** src/util.cpp: [checksum16] *)

(** [while (len > 1) { sum += *p++; len -= 2; }  if (len) sum += *(uint8_t* )p;]
    on a [uint32_t] accumulator. *)
Fixpoint sum_words (sum : Z) (data : list byte) : Z :=
  match data with
  | b0 :: b1 :: rest => sum_words (wrap32 (sum + load16 b0 b1)) rest
  | [b] => wrap32 (sum + u8 b)
  | [] => sum
  end.

(** [while (sum >> 16) sum = (sum & 0xFFFF) + (sum >> 16);] with the loop
    unrolled at most [fuel] times. *)
Fixpoint fold_loop (fuel : nat) (sum : Z) : Z :=
  match fuel with
  | O => sum
  | S fuel' =>
      if Z.eqb (Z.shiftr sum 16) 0 then sum
      else fold_loop fuel' (wrap32 (Z.land sum 0xFFFF + Z.shiftr sum 16))
  end.

(** One round per bit of the accumulator is more than the loop ever needs
    ([fold_carries_exits] below: it has left the loop when the fuel ends). *)
Definition fold_carries (sum : Z) : Z := fold_loop 32 sum.

(** The sum of the buffer as 16-bit words with the carries folded back:
    [checksum16] up to, and without, its final complement. *)
Definition ones_sum16 (data : list byte) : Z :=
  fold_carries (sum_words 0 data).

(** [return static_cast<uint16_t>(~sum);] *)
Definition checksum16 (data : list byte) : Z :=
  wrap16 (Z.lnot (ones_sum16 data)).

(** The 16-bit words of a buffer added up without any width limit; used to
    say when the 32-bit accumulator is exact. *)
Fixpoint raw_sum (data : list byte) : Z :=
  match data with
  | b0 :: b1 :: rest => load16 b0 b1 + raw_sum rest
  | [b] => u8 b
  | [] => 0
  end.

(** ** The one's-complement sum a receiver verifies with

    Not a function of the program: the sum of RFC 1071 that the round-trip
    property of the specification is worded with, "summing the whole buffer
    as 16-bit words with end-around carry".  It has no accumulator of
    limited width: the carry out of bit 15 is added back in at every
    addition.  The words are read in either byte order; a trailing odd byte
    is the first byte of a word whose second byte is zero. *)

Inductive byte_order := HostOrder | NetworkOrder.

Definition word16 (o : byte_order) (b0 b1 : byte) : Z :=
  match o with
  | HostOrder => u8 b0 + 256 * u8 b1
  | NetworkOrder => 256 * u8 b0 + u8 b1
  end.

(** One's-complement addition of two 16-bit words. *)
Definition add_end_around (a b : Z) : Z :=
  (a + b) mod 65536 + (a + b) / 65536.

Fixpoint end_around_sum (o : byte_order) (acc : Z) (data : list byte) : Z :=
  match data with
  | b0 :: b1 :: rest => end_around_sum o (add_end_around acc (word16 o b0 b1)) rest
  | [b] => add_end_around acc (word16 o b x00)
  | [] => acc
  end.

Definition spec_ones_sum16 (o : byte_order) (data : list byte) : Z :=
  end_around_sum o 0 data.

(** The words of a buffer in byte order [o] added up without any width
    limit. *)
Fixpoint raw_words (o : byte_order) (data : list byte) : Z :=
  match data with
  | b0 :: b1 :: rest => word16 o b0 b1 + raw_words o rest
  | [b] => word16 o b x00
  | [] => 0
  end.

(** ** include/cping/icmp.hpp: the packed [IcmpHeader] *)

Record IcmpHeader := {
  icmp_type : Z;       (* uint8_t  *)
  icmp_code : Z;       (* uint8_t  *)
  icmp_checksum : Z;   (* uint16_t *)
  icmp_id : Z;         (* uint16_t *)
  icmp_seq : Z         (* uint16_t *)
}.

(** The eight bytes of the packed struct in memory. *)
Definition header_bytes (h : IcmpHeader) : list byte :=
  [byte_of_Z (icmp_type h); byte_of_Z (icmp_code h)]
  ++ bytes16 (icmp_checksum h) ++ bytes16 (icmp_id h) ++ bytes16 (icmp_seq h).

(** [reinterpret_cast<IcmpHeader*>(packet.data())->checksum = c]: the
    checksum field sits at byte offset 2. *)
Definition set_checksum (packet : list byte) (c : Z) : list byte :=
  memcpy packet 2 (bytes16 c).

(** The Echo Request of the Windows engine (engine.cpp, 301-318):
    [payload] is the 8-byte tick count followed by [payload_size] zero
    bytes; the packet is the header struct followed by [payload]. *)
Definition echo_request_win (id seq ticks : Z) (payload_size : nat) : list byte :=
  let payload := memcpy (replicate (8 + payload_size) x00) 0 (le_bytes 8 ticks) in
  let req := {| icmp_type := 8; icmp_code := 0; icmp_checksum := 0;
                icmp_id := htons id; icmp_seq := htons seq |} in
  let packet := replicate (8 + length payload) x00 in
  let packet := memcpy packet 0 (header_bytes req) in
  let packet := memcpy packet 8 payload in
  set_checksum packet (checksum16 packet).

(** The Echo Request of the Linux engine (engine_linux.cpp, 406-423): a
    zero-filled vector of [sizeof(icmphdr) + sizeof(uint64_t) + payload_size]
    bytes whose header fields are written in place. *)
Definition echo_request_linux (id seq ticks : Z) (payload_size : nat) : list byte :=
  let packet := replicate (8 + 8 + payload_size) x00 in
  let packet := memcpy packet 0 [byte_of_Z 8] in          (* hdr->type = ICMP_ECHO *)
  let packet := memcpy packet 1 [byte_of_Z 0] in          (* hdr->code = 0 *)
  let packet := memcpy packet 4 (bytes16 (htons id)) in   (* hdr->un.echo.id *)
  let packet := memcpy packet 6 (bytes16 (htons seq)) in  (* hdr->un.echo.sequence *)
  let packet := memcpy packet 8 (le_bytes 8 ticks) in
  let packet := set_checksum packet 0 in
  set_checksum packet (checksum16 packet).

(** ** include/cping/ping.hpp: [PingProbeResult] *)

Record PingProbeResult := {
  success : bool;
  rtt_ms : Z;
  ttl : Z;
  if_name : string;
  error_msg : string
}.

(** [PingProbeResult{}]: the member initialisers of the struct. *)
Definition empty_result : PingProbeResult :=
  {| success := false; rtt_ms := -1; ttl := -1;
     if_name := EmptyString; error_msg := EmptyString |}.

Definition with_error (r : PingProbeResult) (msg : string) : PingProbeResult :=
  {| success := success r; rtt_ms := rtt_ms r; ttl := ttl r;
     if_name := if_name r; error_msg := msg |}.

Definition with_rtt (r : PingProbeResult) (rtt : Z) : PingProbeResult :=
  {| success := success r; rtt_ms := rtt; ttl := ttl r;
     if_name := if_name r; error_msg := error_msg r |}.

(** ** [std::promise] / [std::future]

    A promise and the future obtained from it share one state; both are
    handles (a [nat]) into a store of shared states. *)

Inductive shared_status :=
| Pending
| Ready (v : PingProbeResult)
| Broken.                          (* holds [future_error(broken_promise)] *)

Record shared_state := {
  retrieved : bool;                (* [get_future] has been called *)
  status : shared_status
}.

Inductive exn :=
| future_already_retrieved
| promise_already_satisfied
| broken_promise
| no_state
| system_error.                    (* [std::thread] could not be started *)

(** What a call hands back to its caller: a value or a thrown exception. *)
Inductive completion (A : Type) :=
| Returned (a : A)
| Raised (e : exn).
Arguments Returned {A} a.
Arguments Raised {A} e.

Abbreviation store := (gmap nat shared_state).

(** [std::promise<PingProbeResult> pr;] *)
Definition promise_new (h : store) : nat * store :=
  let p := fresh (dom h) in
  (p, <[p := {| retrieved := false; status := Pending |}]> h).

(** [pr.get_future()] *)
Definition get_future (p : nat) (h : store) : exn + store :=
  match h !! p with
  | None => inl no_state
  | Some s =>
      if retrieved s then inl future_already_retrieved
      else inr (<[p := {| retrieved := true; status := status s |}]> h)
  end.

(** [pr.set_value(v)] *)
Definition set_value (p : nat) (v : PingProbeResult) (h : store) : exn + store :=
  match h !! p with
  | None => inl no_state
  | Some s =>
      match status s with
      | Pending => inr (<[p := {| retrieved := retrieved s; status := Ready v |}]> h)
      | _ => inl promise_already_satisfied
      end
  end.

(** [try { pr.set_value(v); } catch (...) {}] *)
Definition try_set_value (p : nat) (v : PingProbeResult) (h : store) : store :=
  match set_value p v h with
  | inr h' => h'
  | inl _ => h
  end.

(** The destructor of a promise that still owns its state: a state that is
    not ready gets [broken_promise] stored and becomes ready. *)
Definition promise_destroy (p : nat) (h : store) : store :=
  match h !! p with
  | Some s =>
      match status s with
      | Pending => <[p := {| retrieved := retrieved s; status := Broken |}]> h
      | _ => h
      end
  | None => h
  end.

(** [fut.wait_for(d) == std::future_status::ready], asked when the wait
    ends: the state became ready, or the deadline passed with it pending. *)
Definition future_ready (f : nat) (h : store) : bool :=
  match h !! f with
  | Some s => match status s with Pending => false | _ => true end
  | None => false
  end.

(** [fut.get()] on a ready state. *)
Definition future_get (f : nat) (h : store) : completion PingProbeResult :=
  match h !! f with
  | Some s =>
      match status s with
      | Ready v => Returned v
      | Broken => Raised broken_promise
      | Pending => Raised no_state
      end
  | None => Raised no_state
  end.

(** ** Engine state (the statics of engine.cpp / engine_linux.cpp) *)

Inductive platform := Windows | Linux.

Record Key := mkKey { key_id : Z; key_seq : Z }.

#[global] Instance Key_eq_dec : EqDecision Key.
Proof. solve_decision. Defined.

#[global] Instance Key_countable : Countable Key :=
  inj_countable' (fun k => (key_id k, key_seq k))
                 (fun p => mkKey (fst p) (snd p))
                 (fun k => match k with mkKey _ _ => eq_refl end).

(** The engine socket, as far as the engine configures it: the value last
    given to [setsockopt(IP_TTL)], [None] while the system default holds. *)
Record socket := { ip_ttl : option Z }.

(** What the process hands to the network. *)
Inductive net_event :=
| Sendto (dst : Z) (packet : list byte) (ttl_in_effect : option Z)
    (* [sendto] on the engine socket *)
| LocalEcho (dst : Z).
    (* the fast path: [IcmpSendEcho], or [send] on a socket of its own *)

Record engine := {
  g_cap : bool;                    (* Windows: the capture handle is open *)
  g_sock : option socket;          (* [None]: INVALID_SOCKET / -1 *)
  g_listener : bool;               (* the listener thread is joinable *)
  g_running : bool;
  g_waiters : gmap Key nat;        (* key -> promise *)
  g_seq : Z;                       (* [std::atomic<uint16_t>] *)
  heap : store;
  net_log : list net_event         (* newest first *)
}.

(** The statics as initialised at program start. *)
Definition engine_start : engine :=
  {| g_cap := false; g_sock := None; g_listener := false; g_running := false;
     g_waiters := ∅; g_seq := 1; heap := ∅; net_log := [] |}.

Definition set_waiters (w : gmap Key nat) (h : store) (st : engine) : engine :=
  {| g_cap := g_cap st; g_sock := g_sock st; g_listener := g_listener st;
     g_running := g_running st; g_waiters := w; g_seq := g_seq st;
     heap := h; net_log := net_log st |}.

Definition set_seq (s : Z) (st : engine) : engine :=
  {| g_cap := g_cap st; g_sock := g_sock st; g_listener := g_listener st;
     g_running := g_running st; g_waiters := g_waiters st; g_seq := s;
     heap := heap st; net_log := net_log st |}.

Definition set_sock (s : option socket) (st : engine) : engine :=
  {| g_cap := g_cap st; g_sock := s; g_listener := g_listener st;
     g_running := g_running st; g_waiters := g_waiters st; g_seq := g_seq st;
     heap := heap st; net_log := net_log st |}.

Definition log_event (e : net_event) (st : engine) : engine :=
  {| g_cap := g_cap st; g_sock := g_sock st; g_listener := g_listener st;
     g_running := g_running st; g_waiters := g_waiters st; g_seq := g_seq st;
     heap := heap st; net_log := e :: net_log st |}.

Definition set_lifecycle (cap : bool) (s : option socket) (l r : bool)
    (st : engine) : engine :=
  {| g_cap := cap; g_sock := s; g_listener := l; g_running := r;
     g_waiters := g_waiters st; g_seq := g_seq st;
     heap := heap st; net_log := net_log st |}.

(** What the engine asks of the host it runs on. *)
Record host := {
  pf : platform;
  inet_pton : string -> option Z;        (* [Some a]: the call returned 1 *)
  is_local_ipv4_addr : Z -> bool;
  getpid : Z;
  (** [unordered_map::emplace] on a key that is present inserts nothing; the
      standard lets it build the node, and so move from the promise, before
      it looks the key up.  [true]: the node is built first. *)
  emplace_builds_first : bool
}.

(** [bool engine_available()] *)
Definition engine_available (st : engine) : bool := g_running st.

(** ** The waiter table under [g_mtx] *)

(** [g_waiters.emplace(k, std::move(pr))].  The result tells whether the
    local [pr] still owns the shared state afterwards. *)
Definition emplace (hst : host) (k : Key) (p : nat) (st : engine) : bool * engine :=
  match g_waiters st !! k with
  | None => (false, set_waiters (<[k := p]> (g_waiters st)) (heap st) st)
  | Some _ =>
      if emplace_builds_first hst
      then (false, set_waiters (g_waiters st) (promise_destroy p (heap st)) st)
      else (true, st)
  end.

(** [g_waiters.erase(k)]: the entry goes, and with it the promise it holds. *)
Definition erase (k : Key) (st : engine) : engine :=
  match g_waiters st !! k with
  | Some q => set_waiters (delete k (g_waiters st)) (promise_destroy q (heap st)) st
  | None => st
  end.

(** The dispatch block of [listener_loop] (engine.cpp 112-121,
    engine_linux.cpp 156-165):
    [it = find(k); if (it != end()) { tmp = move(it->second); erase(it);
     try { tmp.set_value(probe); } catch (...) {} }].
    The block returns nothing; the boolean says whether the key was found. *)
Definition resolve_waiter (k : Key) (probe : PingProbeResult) (st : engine)
    : bool * engine :=
  match g_waiters st !! k with
  | Some p =>
      let h := try_set_value p probe (heap st) in
      let h := promise_destroy p h in            (* [tmp] goes out of scope *)
      (true, set_waiters (delete k (g_waiters st)) h st)
  | None => (false, st)
  end.

(** ** [shutdown_engine] *)

(** The body of the loop over [g_waiters].  Windows asks the promise for a
    future first, inside the same [try]. *)
Definition drain_one (p : platform) (pr : nat) (h : store) : store :=
  match p with
  | Linux => try_set_value pr empty_result h
  | Windows =>
      match get_future pr h with
      | inl _ => h
      | inr h' => try_set_value pr empty_result h'
      end
  end.

Definition drain_all (p : platform) (entries : list (Key * nat)) (h : store) : store :=
  foldr (fun kv h => drain_one p (snd kv) h) h entries.

(** [g_waiters.clear()] destroys every promise of the table. *)
Definition destroy_all (entries : list (Key * nat)) (h : store) : store :=
  foldr (fun kv h => promise_destroy (snd kv) h) h entries.

Definition shutdown_engine (hst : host) (st : engine) : engine :=
  let entries := map_to_list (g_waiters st) in
  let h := drain_all (pf hst) entries (heap st) in
  let h := destroy_all entries h in
  {| g_cap := false; g_sock := None; g_listener := false; g_running := false;
     g_waiters := ∅; g_seq := g_seq st; heap := h; net_log := net_log st |}.

(** ** [init_engine] *)

(** How the system calls of one [init_engine] turn out. *)
Record init_io := {
  findalldevs_ok : bool;
  dev_found : bool;
  open_capture_ok : bool;
  apply_filter_ok : bool;
  ensure_wsa_ok : bool;
  socket_ok : bool;
  thread_ok : bool
}.

Definition init_engine (hst : host) (io : init_io) (st : engine)
    : completion bool * engine :=
  if g_running st then (Returned true, st)
  else
    match pf hst with
    | Linux =>
        if negb (socket_ok io) then (Returned false, st)
        else
          (* IP_TTL is set to [ttl_def = 64] *)
          let s := {| ip_ttl := Some 64 |} in
          if thread_ok io
          then (Returned true, set_lifecycle (g_cap st) (Some s) true true st)
          else (Returned false, set_lifecycle (g_cap st) None (g_listener st) false st)
    | Windows =>
        if negb (findalldevs_ok io) then (Returned false, st)
        else if negb (dev_found io) then (Returned false, st)
        else if negb (open_capture_ok io) then (Returned false, st)
        else
          let st := set_lifecycle true (g_sock st) (g_listener st) (g_running st) st in
          if negb (apply_filter_ok io) then (Returned false, st)
          else if negb (ensure_wsa_ok io) then (Returned false, st)
          else if negb (socket_ok io) then (Returned false, set_sock None st)
          else
            let s := {| ip_ttl := None |} in
            if thread_ok io
            then (Returned true, set_lifecycle true (Some s) true true st)
            else (Raised system_error,
                  set_lifecycle true (Some s) (g_listener st) true st)
    end.

(** ** The local fast path *)

(** The reply buffer [IcmpSendEcho] fills in. *)
Record icmp_echo_reply := {
  dwRes : Z;
  rep_Status : Z;
  rep_RoundTripTime : Z;
  rep_Ttl : Z
}.

(** One datagram as [recvmsg] hands it over: the bytes it stored, the
    [IP_TTL] control message if there was one, and the clock on return. *)
Record arrival := {
  a_bytes : list byte;
  a_cmsg_ttl : option Z;
  a_time : Z
}.

(** How the system calls and clocks of one probe turn out. *)
Record probe_io := {
  ticks : Z;                       (* GetTickCount64() / steady_clock, ms *)
  t_send : Z;                      (* high_resolution_clock at the send, ms *)
  sendto_ok : bool;                (* [sendto] on the engine socket *)
  icmp_create_ok : bool;           (* Windows: IcmpCreateFile *)
  icmp_reply : icmp_echo_reply;    (* Windows: IcmpSendEcho *)
  lsocket_ok : bool;               (* Linux fast path: socket() *)
  lconnect_ok : bool;              (* Linux fast path: connect() *)
  lsend_ok : bool;                 (* Linux fast path: send() *)
  arrivals : list arrival;         (* Linux fast path: what recvmsg() returns *)
  recv_errno_timeout : bool        (* errno of the failing recvmsg() is
                                      EAGAIN / EWOULDBLOCK / EINTR *)
}.

(** win_icmp.cpp, [icmp_ping_local]: the result and the two out-parameters. *)
Definition icmp_ping_local (io : probe_io) (out_rtt_ms out_ttl : Z)
    : bool * Z * Z :=
  if negb (icmp_create_ok io) then (false, out_rtt_ms, out_ttl)
  else
    let rep := icmp_reply io in
    if (1 <=? dwRes rep) && (rep_Status rep =? 0)    (* IP_SUCCESS *)
    then (true, rep_RoundTripTime rep, rep_Ttl rep)
    else (false, out_rtt_ms, out_ttl).

Definition byte_at (i : nat) (buf : list byte) : byte := default x00 (buf !! i).

Definition load16_at (off : nat) (buf : list byte) : Z :=
  load16 (byte_at off buf) (byte_at (S off) buf).

(** [probe.ttl = (ttl_val >= 0) ? ttl_val : -1] with [ttl_val] starting at
    -1 and overwritten by the control message. *)
Definition cmsg_ttl (c : option Z) : Z :=
  let ttl_val := default (-1) c in
  if 0 <=? ttl_val then ttl_val else -1.

(** [char cbuf[256]] and the sizes of <sys/socket.h> on the LP64 Linux
    targets: [sizeof(cmsghdr)] is 16, so a control message carrying an
    [int] has [CMSG_LEN] 20 and takes [CMSG_SPACE] 24 bytes. *)
Definition sizeof_cbuf : Z := 256.
Definition CMSG_LEN_int : Z := 20.
Definition CMSG_SPACE_int : Z := 24.

(** What a successful [recvmsg] does with the control buffer.
    [msg.msg_controllen] is read and written by the call: on entry it is
    the room the caller offers, on return the length of the control data
    stored.  [IP_RECVTTL] is the only ancillary option the code enables
    (engine_linux.cpp 194 and 277), so the kernel has at most one control
    message for a datagram, [c]: the [IP_TTL] of its IP header.  It is
    stored if the room takes it, and dropped otherwise (the call then
    sets [MSG_CTRUNC], which the code does not read).  The result is the
    message the [CMSG_FIRSTHDR] / [CMSG_NXTHDR] walk finds and
    [msg.msg_controllen] on return.  (With 16 to 19 bytes of room the
    kernel would store a header cut off before its data; the loops never
    offer that: the room is 256, 24 or 0, [recvmsg_control_room] below.)
    A failing [recvmsg] leaves the field as it was. *)
Definition recvmsg_control (controllen : Z) (c : option Z) : option Z * Z :=
  match c with
  | Some t =>
      if CMSG_LEN_int <=? controllen
      then (Some t, Z.min CMSG_SPACE_int controllen)
      else (None, 0)
  | None => (None, 0)
  end.

Definition has_control (a : arrival) : bool :=
  match a_cmsg_ttl a with Some _ => true | None => false end.

(** The receive loop of the Linux fast path (engine_linux.cpp 338-382).
    [controllen] is [msg.msg_controllen] on entry to the next [recvmsg]:
    [sizeof(cbuf)] at first (line 336) and thereafter what the previous
    call left, as no [continue] of the loop sets it again. *)
Fixpoint recv_loop (controllen : Z) (id seq tsend : Z) (probe : PingProbeResult)
    (incoming : list arrival) (errno_timeout : bool) : PingProbeResult :=
  match incoming with
  | [] =>
      with_error probe (if errno_timeout then "Timeout" else "recvmsg() failed")
  | a :: rest =>
      let buf := a_bytes a in
      let (cmsg, controllen) := recvmsg_control controllen (a_cmsg_ttl a) in
      if (Z.of_nat (length buf) <? 8)
      then recv_loop controllen id seq tsend probe rest errno_timeout
      else if negb (u8 (byte_at 0 buf) =? 0)
      then recv_loop controllen id seq tsend probe rest errno_timeout
      else if negb (ntohs (load16_at 4 buf) =? id) || negb (ntohs (load16_at 6 buf) =? seq)
      then recv_loop controllen id seq tsend probe rest errno_timeout
      else
        {| success := true; rtt_ms := a_time a - tsend; ttl := cmsg_ttl cmsg;
           if_name := if_name probe; error_msg := error_msg probe |}
  end.

(** ** [ping_once_engine] *)

(** A probe blocked in [fut.wait_for]. *)
Record waiter := {
  w_key : Key;
  w_fut : nat;
  w_t_send : Z;
  w_owns_promise : bool            (* the local [pr] still owns the state *)
}.

Inductive begun :=
| Done (r : PingProbeResult)       (* returned without waiting *)
| Awaiting (w : waiter)            (* reached [fut.wait_for] *)
| Fault.                           (* [payload_size < 0]: the vector size wraps
                                      around; allocation throws or the copy of
                                      the tick count overruns the buffer *)

Definition echo_request (p : platform) (id seq tk : Z) (payload_size : nat)
    : list byte :=
  match p with
  | Windows => echo_request_win id seq tk payload_size
  | Linux => echo_request_linux id seq tk payload_size
  end.

(** [g_seq.fetch_add(1)] on a [uint16_t]. *)
Definition fetch_add_seq (st : engine) : Z * engine :=
  (g_seq st, set_seq (wrap16 (g_seq st + 1)) st).

(** [static_cast<uint16_t>(pid & 0xFFFF)] *)
Definition probe_id (hst : host) : Z := Z.land (getpid hst) 0xFFFF.

Definition sendto_failed (p : platform) : string :=
  match p with Windows => "sendto failed" | Linux => "sendto() failed" end.

(** The destructor of the local [pr] when the function returns. *)
Definition drop_local (owns : bool) (p : nat) (st : engine) : engine :=
  if owns then set_waiters (g_waiters st) (promise_destroy p (heap st)) st else st.

(** The fast path for a destination that is one of the host's addresses. *)
Definition local_ping (hst : host) (dst : Z) (payload_size ttl_opt : Z)
    (io : probe_io) (st : engine) : begun * engine :=
  match pf hst with
  | Windows =>
      if negb (icmp_create_ok io)
      then (Done (with_error empty_result "Local ICMP failed"), st)
      else
        let st := log_event (LocalEcho dst) st in
        match icmp_ping_local io 0 (-1) with
        | (true, rtt, ttl_local) =>
            (Done {| success := true; rtt_ms := rtt; ttl := ttl_local;
                     if_name := EmptyString; error_msg := EmptyString |}, st)
        | (false, _, _) =>
            (Done (with_error empty_result "Local ICMP failed"), st)
        end
  | Linux =>
      if negb (lsocket_ok io)
      then (Done (with_error empty_result "socket() failed"), st)
      else if negb (lconnect_ok io)
      then (Done (with_error empty_result "connect() failed"), st)
      else
        let id := probe_id hst in
        let (seq, st) := fetch_add_seq st in
        if payload_size <? 0 then (Fault, st)
        else
          let st := log_event (LocalEcho dst) st in
          if negb (lsend_ok io)
          then (Done (with_error empty_result "send() failed"), st)
          else (Done (recv_loop sizeof_cbuf id seq (t_send io) empty_result
                        (arrivals io) (recv_errno_timeout io)), st)
  end.

(** [ping_once_engine] up to the point where it blocks. *)
Definition ping_begin (hst : host) (ip : string)
    (timeout_ms payload_size ttl_opt : Z) (io : probe_io) (st : engine)
    : begun * engine :=
  match inet_pton hst ip with
  | None => (Done (with_error empty_result "Invalid IP"), st)
  | Some dst =>
      if is_local_ipv4_addr hst dst
      then local_ping hst dst payload_size ttl_opt io st
      else
        match g_sock st with
        | None => (Done (with_error empty_result "Engine socket not available"), st)
        | Some s =>
            let id := probe_id hst in
            let (seq, st) := fetch_add_seq st in
            let k := mkKey id seq in
            let (p, h) := promise_new (heap st) in
            let h := match get_future p h with inr h' => h' | inl _ => h end in
            let (owns, st) := emplace hst k p (set_waiters (g_waiters st) h st) in
            if payload_size <? 0 then (Fault, st)
            else
              let packet := echo_request (pf hst) id seq (ticks io)
                              (Z.to_nat payload_size) in
              let s := if 0 <? ttl_opt then {| ip_ttl := Some ttl_opt |} else s in
              let st := set_sock (Some s) st in
              let st := log_event (Sendto dst packet (ip_ttl s)) st in
              if sendto_ok io
              then (Awaiting {| w_key := k; w_fut := p; w_t_send := t_send io;
                                w_owns_promise := owns |}, st)
              else (Done (with_error empty_result (sendto_failed (pf hst))),
                    drop_local owns p (erase k st))
        end
  end.

(** [ping_once_engine] from the end of [fut.wait_for] on; [t_recv] is the
    clock read after [fut.get()]. *)
Definition ping_finish (w : waiter) (t_recv : Z) (st : engine)
    : completion PingProbeResult * engine :=
  if future_ready (w_fut w) (heap st) then
    match future_get (w_fut w) (heap st) with
    | Returned v =>
        (Returned (with_rtt v (t_recv - w_t_send w)),
         drop_local (w_owns_promise w) (w_fut w) st)
    | Raised e => (Raised e, drop_local (w_owns_promise w) (w_fut w) st)
    end
  else
    (Returned (with_error empty_result "Timeout"),
     drop_local (w_owns_promise w) (w_fut w) (erase (w_key w) st)).

(** The request before its checksum is filled in, byte by byte as it goes
    on the wire; used to state what the two builders produce. *)
Definition echo_request_unsummed (id seq tk : Z) (payload_size : nat) : list byte :=
  [x08; x00; x00; x00; byte_of_Z (id / 256); byte_of_Z id;
   byte_of_Z (seq / 256); byte_of_Z seq]
  ++ le_bytes 8 tk ++ replicate payload_size x00.

(** ** Vocabulary for the properties *)

(** What [try { set_value(v) } catch (...) {}] does to one shared state. *)
Definition settle (v : PingProbeResult) (s : shared_state) : shared_state :=
  match status s with
  | Pending => {| retrieved := retrieved s; status := Ready v |}
  | _ => s
  end.

(** What the destructor of its promise does to one shared state. *)
Definition abandon (s : shared_state) : shared_state :=
  match status s with
  | Pending => {| retrieved := retrieved s; status := Broken |}
  | _ => s
  end.

(** What one round of the drain loop does to the state of its promise. *)
Definition drained (p : platform) (s : shared_state) : shared_state :=
  match p with
  | Linux => settle empty_result s
  | Windows =>
      if retrieved s then s
      else settle empty_result {| retrieved := true; status := status s |}
  end.

(** Every promise of the table has a shared state. *)
Definition table_wf (st : engine) : Prop :=
  forall k p, g_waiters st !! k = Some p -> is_Some (heap st !! p).

(** The states the statics can be in: from program start, by the calls of
    the public surface and the listener's dispatch, each taken as one step. *)
Inductive reachable (hst : host) : engine -> Prop :=
| reach_start : reachable hst engine_start
| reach_init io st :
    reachable hst st -> reachable hst (snd (init_engine hst io st))
| reach_shutdown st :
    reachable hst st -> reachable hst (shutdown_engine hst st)
| reach_begin ip timeout_ms payload_size ttl_opt io st :
    reachable hst st ->
    reachable hst (snd (ping_begin hst ip timeout_ms payload_size ttl_opt io st))
| reach_finish w t_recv st :
    reachable hst st -> reachable hst (snd (ping_finish w t_recv st))
| reach_resolve k probe st :
    reachable hst st -> reachable hst (snd (resolve_waiter k probe st)).

(** The heap in which a probe has created its promise and taken the future. *)
Definition heap_with_waiter (h : store) : store :=
  <[fresh (dom h) := {| retrieved := true; status := Pending |}]> h.

(** ** Sample host and inputs, for the worked examples *)

Definition sample_buffer : list byte :=
  [x08; x00; x00; x00; x12; x34; x00; x01; xe8; x03; x07].

(** A buffer with a zero checksum field followed by [words] words 0xFFFF,
    and the one of 131078 bytes, long enough for the 32-bit accumulator of
    [checksum16] to wrap. *)
Definition ff_buffer (words : nat) : list byte :=
  [xff; xff; x00; x00] ++ replicate (2 * words) xff.

Definition long_buffer : list byte := ff_buffer (Z.to_nat 65537).

(** A host whose only local address is 127.0.0.1; 10.0.0.7 is remote and
    every other string is taken not to be a dotted quad. *)
Definition sample_host (p : platform) : host :=
  {| pf := p;
     inet_pton := fun s =>
       if String.eqb s "10.0.0.7" then Some 117440522
       else if String.eqb s "127.0.0.1" then Some 16777343
       else None;
     is_local_ipv4_addr := fun a => a =? 16777343;
     getpid := 4660;
     emplace_builds_first := false |}.

(** Every call succeeds; nothing ever arrives. *)
Definition sample_io : probe_io :=
  {| ticks := 1000; t_send := 5; sendto_ok := true; icmp_create_ok := true;
     icmp_reply := {| dwRes := 1; rep_Status := 0;
                      rep_RoundTripTime := 0; rep_Ttl := 128 |};
     lsocket_ok := true; lconnect_ok := true; lsend_ok := true;
     arrivals := []; recv_errno_timeout := true |}.

Definition sample_init : init_io :=
  {| findalldevs_ok := true; dev_found := true; open_capture_ok := true;
     apply_filter_ok := true; ensure_wsa_ok := true; socket_ok := true;
     thread_ok := true |}.

(** The engine after a successful [init_engine]. *)
Definition sample_running (p : platform) : engine :=
  snd (init_engine (sample_host p) sample_init engine_start).

(** The engine with one probe to 10.0.0.7 blocked in [wait_for], and that
    probe. *)
Definition sample_probe (p : platform) : begun * engine :=
  ping_begin (sample_host p) "10.0.0.7" 1000 0 (-1) sample_io (sample_running p).

Definition sample_waiter : waiter :=
  {| w_key := mkKey 4660 1; w_fut := 0%nat; w_t_send := 5;
     w_owns_promise := false |}.

(** A running engine whose table already holds the key the next probe
    will draw (the 16-bit counter has come round to a probe that is still
    waiting). *)
Definition sample_collision (p : platform) : engine :=
  set_seq 1 (snd (sample_probe p)).

(** ** [listener_loop] *)

(** The partial result the listener hands to a waiter: the caller fills in
    the round-trip time. *)
Definition listener_result (ttl_val : Z) : PingProbeResult :=
  {| success := true; rtt_ms := 0; ttl := ttl_val;
     if_name := EmptyString; error_msg := EmptyString |}.

(** engine_linux.cpp: what one [recvmsg] of the listener returns. *)
Inductive recv_result :=
| RecvFailed (retry : bool)        (* n < 0; [retry]: errno is EINTR, EAGAIN
                                      or EWOULDBLOCK *)
| Received (a : arrival).          (* n = length (a_bytes a) *)

(** The body of the [while (g_running.load())] loop of engine_linux.cpp,
    run over the results of its successive [recvmsg] calls; it stays
    blocked in [recvmsg] when they are used up.  [controllen] is
    [msg.msg_controllen] on entry to the next [recvmsg]: the loop sets it
    back to [sizeof(cbuf)] only at the end of its body (lines 167-169),
    which every [continue] skips. *)
Fixpoint listener_events_linux (controllen : Z) (events : list recv_result)
    (st : engine) : engine :=
  match events with
  | [] => st
  | e :: rest =>
      if negb (g_running st) then st
      else
        match e with
        | RecvFailed retry =>
            if retry then listener_events_linux controllen rest st else st
        | Received a =>
            let buf := a_bytes a in
            let (cmsg, controllen) := recvmsg_control controllen (a_cmsg_ttl a) in
            if Z.of_nat (length buf) =? 0 then st
            else if Z.of_nat (length buf) <? 8
            then listener_events_linux controllen rest st
            else if negb (u8 (byte_at 0 buf) =? 0)       (* ICMP_ECHOREPLY *)
            then listener_events_linux controllen rest st
            else
              let k := mkKey (ntohs (load16_at 4 buf)) (ntohs (load16_at 6 buf)) in
              let probe := listener_result (cmsg_ttl cmsg) in
              listener_events_linux sizeof_cbuf rest
                (snd (resolve_waiter k probe st))
        end
  end.

(** [listener_loop] of engine_linux.cpp. *)
Definition listener_loop_linux (events : list recv_result) (st : engine) : engine :=
  match g_sock st with
  | None => st
  | Some _ => listener_events_linux sizeof_cbuf events st
  end.

(** The two tests of the Linux listener on a datagram (lines 127-132): it
    holds an ICMP header and is an Echo Reply. *)
Definition is_echo_reply (a : arrival) : bool :=
  (8 <=? Z.of_nat (length (a_bytes a))) && (u8 (byte_at 0 (a_bytes a)) =? 0).

(** The key the Linux listener reads from a datagram (lines 134-135). *)
Definition reply_key (a : arrival) : Key :=
  mkKey (ntohs (load16_at 4 (a_bytes a))) (ntohs (load16_at 6 (a_bytes a))).

(** A datagram the Linux listener passes over with [continue]: not empty
    (that ends the loop, line 124), and too short or not an Echo Reply. *)
Definition listener_skips (a : arrival) : bool :=
  negb (Z.of_nat (length (a_bytes a)) =? 0) && negb (is_echo_reply a).

(** engine.cpp: what one [pcap_next_ex] returns. *)
Inductive pcap_result :=
| PcapTimeout                      (* r == 0 *)
| PcapBreak                        (* r == -2 *)
| PcapError                        (* r == -1 *)
| PcapPacket (data : list byte).   (* r == 1, caplen = length data *)

(** [static_cast<uint8_t>((ver_ihl & 0x0F) * 4)] *)
Definition ip_header_length (ver_ihl : Z) : Z :=
  (Z.land ver_ihl 0x0F * 4) mod 256.

(** The checks of the Windows listener on a captured frame (engine.cpp
    91-105): the key and the TTL of the IP header when the frame gets
    through all of them. *)
Definition frame_reply (data : list byte) : option (Key * Z) :=
  let caplen := Z.of_nat (length data) in
  if caplen <? 14 + 20 then None
  else
    let ver_ihl := u8 (byte_at 14 data) in
    if negb (Z.shiftr ver_ihl 4 =? 4) then None
    else if negb (u8 (byte_at 23 data) =? 1) then None
    else
      let ihl := ip_header_length ver_ihl in
      if caplen <? 14 + ihl + 8 then None
      else
        let off := (14 + Z.to_nat ihl)%nat in
        if negb (u8 (byte_at off data) =? 0) then None
        else Some (mkKey (ntohs (load16_at (off + 4) data))
                         (ntohs (load16_at (off + 6) data)),
                   u8 (byte_at 22 data))
  .

Fixpoint listener_events_win (events : list pcap_result) (st : engine) : engine :=
  match events with
  | [] => st
  | e :: rest =>
      if negb (g_running st) then st
      else
        match e with
        | PcapTimeout => listener_events_win rest st
        | PcapBreak => st
        | PcapError => st
        | PcapPacket data =>
            match frame_reply data with
            | None => listener_events_win rest st
            | Some (k, ttl_val) =>
                listener_events_win rest
                  (snd (resolve_waiter k (listener_result ttl_val) st))
            end
        end
  end.

(** [listener_loop] of engine.cpp. *)
Definition listener_loop_win (events : list pcap_result) (st : engine) : engine :=
  if negb (g_cap st) then st else listener_events_win events st.

(** An Echo Reply carries identifier, sequence number and data of the
    request it answers; only the type differs.  (The listeners do not look
    at the checksum.) *)
Definition as_reply (request : list byte) : list byte := x00 :: drop 1 request.

(** ** The callers: [ping_host] (ping_win.cpp, ping_linux.cpp) *)

Record PingResult := {
  pr_reachable : bool;             (* [reachable] *)
  pr_rtt_ms : Z;                   (* [rtt_ms] *)
  pr_ttl : Z;                      (* [ttl] *)
  pr_probes : list PingProbeResult (* [probes] *)
}.

Definition empty_ping_result : PingResult :=
  {| pr_reachable := false; pr_rtt_ms := -1; pr_ttl := -1; pr_probes := [] |}.

(** The loop of [ping_host]: [once i] is what the i-th call of
    [ping_once_win] / [ping_once_linux] returns; [n] iterations are left. *)
Fixpoint ping_host_loop (once : nat -> PingProbeResult) (stop_on_first_success : bool)
    (n i : nat) (result : PingResult) (any_ok : bool) : PingResult * bool :=
  match n with
  | O => (result, any_ok)
  | S n' =>
      let probe := once i in
      let result :=
        {| pr_reachable := pr_reachable result; pr_rtt_ms := pr_rtt_ms result;
           pr_ttl := pr_ttl result; pr_probes := pr_probes result ++ [probe] |} in
      if success probe then
        let result :=
          if negb any_ok || (rtt_ms probe <? pr_rtt_ms result)
          then {| pr_reachable := pr_reachable result; pr_rtt_ms := rtt_ms probe;
                  pr_ttl := ttl probe; pr_probes := pr_probes result |}
          else result in
        if stop_on_first_success then (result, true)
        else ping_host_loop once stop_on_first_success n' (S i) result true
      else ping_host_loop once stop_on_first_success n' (S i) result any_ok
  end.

(** [ping_host(ip, opt)] with [retries] and [stop_on_first_success] of [opt]. *)
Definition ping_host (once : nat -> PingProbeResult) (retries : Z)
    (stop_on_first_success : bool) : PingResult :=
  let attempts := Z.to_nat (Z.max 1 retries) in
  let (result, any_ok) :=
    ping_host_loop once stop_on_first_success attempts 0 empty_ping_result false in
  {| pr_reachable := any_ok; pr_rtt_ms := pr_rtt_ms result;
     pr_ttl := pr_ttl result; pr_probes := pr_probes result |}.

(** runner.cpp, [run_ping], normal mode: the loop that merges the results
    of the attempts. *)
Definition merge_attempt (res attempt : PingResult) : PingResult :=
  let res :=
    {| pr_reachable := pr_reachable res; pr_rtt_ms := pr_rtt_ms res;
       pr_ttl := pr_ttl res; pr_probes := pr_probes res ++ pr_probes attempt |} in
  if pr_reachable attempt then
    if negb (pr_reachable res) || (pr_rtt_ms attempt <? pr_rtt_ms res)
    then attempt
    else res
  else res.

Definition merge_attempts (attempts : list PingResult) : PingResult :=
  foldl merge_attempt empty_ping_result attempts.

(** ** Runs of the engine with their waiting probes *)

(** The states of the statics together with the probes that are blocked in
    [wait_for]; every probe is given a payload size that is not negative. *)
Inductive runs (hst : host) : engine -> list waiter -> Prop :=
| runs_start : runs hst engine_start []
| runs_init io st ws :
    runs hst st ws -> runs hst (snd (init_engine hst io st)) ws
| runs_shutdown st ws :
    runs hst st ws -> runs hst (shutdown_engine hst st) ws
| runs_begin ip timeout_ms payload_size ttl_opt io st ws :
    runs hst st ws ->
    0 <= payload_size ->
    runs hst (snd (ping_begin hst ip timeout_ms payload_size ttl_opt io st))
      (match fst (ping_begin hst ip timeout_ms payload_size ttl_opt io st) with
       | Awaiting w => w :: ws
       | _ => ws
       end)
| runs_finish w t_recv st ws1 ws2 :
    runs hst st (ws1 ++ w :: ws2) ->
    runs hst (snd (ping_finish w t_recv st)) (ws1 ++ ws2)
| runs_resolve k probe st ws :
    runs hst st ws -> runs hst (snd (resolve_waiter k probe st)) ws.

(** What holds of the table [m], the shared states [h] and the waiting
    probes [ws] in every run. *)
Record tinv (m : gmap Key nat) (h : store) (ws : list waiter) : Prop := {
  (** every promise of the table is pending, its future taken *)
  inv_pending : forall k p,
    m !! k = Some p ->
    h !! p = Some {| retrieved := true; status := Pending |};
  (** no promise is in the table twice *)
  inv_inj : forall k1 k2 p,
    m !! k1 = Some p -> m !! k2 = Some p -> k1 = k2;
  (** every entry of the table belongs to a probe that is waiting *)
  inv_owned : forall k p,
    m !! k = Some p ->
    exists w, w ∈ ws /\ w_key w = k /\ w_fut w = p /\ w_owns_promise w = false;
  (** the future of every waiting probe has a shared state; if its promise
      is in the table, it is there under the key of the probe, and the
      probe did not keep it *)
  inv_waiting : forall w,
    w ∈ ws ->
    is_Some (h !! w_fut w) /\
    (forall k, m !! k = Some (w_fut w) ->
               k = w_key w /\ w_owns_promise w = false)
}.

Definition table_inv (st : engine) (ws : list waiter) : Prop :=
  tinv (g_waiters st) (heap st) ws.

(** The three tests of the receive loop of the Linux fast path: the datagram
    is an Echo Reply for [id] and [seq]. *)
Definition is_reply_for (id seq : Z) (a : arrival) : bool :=
  let buf := a_bytes a in
  (8 <=? Z.of_nat (length buf))
  && (u8 (byte_at 0 buf) =? 0)
  && (ntohs (load16_at 4 buf) =? id)
  && (ntohs (load16_at 6 buf) =? seq).

(** As [sample_io], with a [sendto] that fails. *)
Definition sample_io_send_fails : probe_io :=
  {| ticks := 1000; t_send := 5; sendto_ok := false; icmp_create_ok := true;
     icmp_reply := icmp_reply sample_io;
     lsocket_ok := true; lconnect_ok := true; lsend_ok := true;
     arrivals := []; recv_errno_timeout := true |}.

(** As [sample_init], but the listener thread cannot be started. *)
Definition sample_init_no_thread : init_io :=
  {| findalldevs_ok := true; dev_found := true; open_capture_ok := true;
     apply_filter_ok := true; ensure_wsa_ok := true; socket_ok := true;
     thread_ok := false |}.

(** A link header and an IPv4 header (no options, TTL 57, protocol ICMP). *)
Definition sample_eth : list byte := replicate 14 x00.

Definition sample_ip : list byte :=
  [x45; x00; x00; x24; x00; x00; x00; x00; x39; x01; x00; x00;
   x0a; x00; x00; x07; x0a; x00; x00; x01].

(** What [ping_host] keeps true of [result] and [any_ok] round after round. *)
Definition host_inv (result : PingResult) (any_ok : bool) : Prop :=
  any_ok = existsb success (pr_probes result) /\
  (any_ok = false -> pr_rtt_ms result = -1 /\ pr_ttl result = -1) /\
  (any_ok = true ->
   (exists p, p ∈ pr_probes result /\ success p = true /\
              rtt_ms p = pr_rtt_ms result /\ ttl p = pr_ttl result) /\
   (forall p, p ∈ pr_probes result -> success p = true ->
              pr_rtt_ms result <= rtt_ms p)).

(** Three attempts of which the second and third are answered, in 12 ms and
    in 9 ms. *)
Definition sample_once (i : nat) : PingProbeResult :=
  match i with
  | 1%nat => {| success := true; rtt_ms := 12; ttl := 57;
                if_name := EmptyString; error_msg := EmptyString |}
  | 2%nat => {| success := true; rtt_ms := 9; ttl := 56;
                if_name := EmptyString; error_msg := EmptyString |}
  | _ => with_error empty_result "No reply received"
  end.

(* ===================================================================== *)
(** * Part II: properties *)
(* ===================================================================== *)

(** ** Bytes *)

Lemma u8_range b : 0 <= u8 b < 256.
Proof. unfold u8. pose proof (Byte.to_N_bounded b). lia. Qed.

Lemma u8_byte_of_Z z : u8 (byte_of_Z z) = z mod 256.
Proof.
  unfold u8, byte_of_Z.
  pose proof (Z.mod_pos_bound z 256 ltac:(lia)) as Hr.
  destruct (Byte.of_N (Z.to_N (z mod 256))) as [b|] eqn:E; simpl.
  - apply Byte.to_of_N in E. rewrite E. lia.
  - apply Byte.of_N_None_iff in E. lia.
Qed.

Lemma u8_x00 : u8 x00 = 0.
Proof. reflexivity. Qed.

Lemma load16_range b0 b1 : 0 <= load16 b0 b1 < 65536.
Proof.
  unfold load16. pose proof (u8_range b0). pose proof (u8_range b1). lia.
Qed.

(** Storing a 16-bit value and loading it back. *)
Lemma load16_bytes16 v :
  0 <= v < 65536 -> load16 (byte_of_Z v) (byte_of_Z (v / 256)) = v.
Proof.
  intros Hv. unfold load16. rewrite !u8_byte_of_Z.
  assert (0 <= v / 256 < 256)
    by (split; [apply Z.div_pos; lia | apply Z.div_lt_upper_bound; lia]).
  rewrite (Z.mod_small (v / 256)) by lia.
  pose proof (Z.div_mod v 256 ltac:(lia)). lia.
Qed.

(** Buffers are walked two bytes at a time. *)
Lemma list_pair_ind (P : list byte -> Prop) :
  P [] -> (forall b, P [b]) ->
  (forall b0 b1 l, P l -> P (b0 :: b1 :: l)) ->
  forall l, P l.
Proof.
  intros Hnil Hone Hstep l.
  assert (P l /\ forall b, P (b :: l)) as [H _]; [|exact H].
  induction l as [|a l [IH1 IH2]]; split; auto.
Qed.

(** ** [checksum16]: the accumulator and the carry fold *)

Lemma wrap32_range z : 0 <= wrap32 z < 4294967296.
Proof. apply Z.mod_pos_bound. lia. Qed.

Lemma raw_sum_nonneg data : 0 <= raw_sum data.
Proof.
  induction data as [|b|b0 b1 l IH] using list_pair_ind; simpl.
  - lia.
  - apply u8_range.
  - pose proof (load16_range b0 b1). lia.
Qed.

(** The accumulator holds the unbounded sum modulo 2^32. *)
Lemma sum_words_raw data : forall acc,
  0 <= acc < 4294967296 ->
  sum_words acc data = wrap32 (acc + raw_sum data).
Proof.
  induction data as [|b|b0 b1 l IH] using list_pair_ind; intros acc Hacc.
  - simpl. unfold wrap32. rewrite Z.add_0_r, Z.mod_small; lia.
  - reflexivity.
  - change (sum_words acc (b0 :: b1 :: l))
      with (sum_words (wrap32 (acc + load16 b0 b1)) l).
    rewrite IH by apply wrap32_range.
    change (raw_sum (b0 :: b1 :: l)) with (load16 b0 b1 + raw_sum l).
    unfold wrap32. rewrite Zplus_mod_idemp_l. f_equal. lia.
Qed.

Lemma sum_words_range data : 0 <= sum_words 0 data < 4294967296.
Proof. rewrite sum_words_raw by lia. apply wrap32_range. Qed.

Lemma shiftr16 s : Z.shiftr s 16 = s / 65536.
Proof. rewrite Z.shiftr_div_pow2 by lia. reflexivity. Qed.

Lemma land16 s : Z.land s 0xFFFF = s mod 65536.
Proof.
  change 0xFFFF with (Z.ones 16). rewrite Z.land_ones by lia. reflexivity.
Qed.

Lemma fold_loop_S n s :
  fold_loop (S n) s =
    if Z.eqb (s / 65536) 0 then s
    else fold_loop n (wrap32 (s mod 65536 + s / 65536)).
Proof. cbn [fold_loop]. rewrite shiftr16, land16. reflexivity. Qed.

Lemma fold_loop_small s n : 0 <= s < 65536 -> fold_loop n s = s.
Proof.
  intros Hs. destruct n; [reflexivity|].
  rewrite fold_loop_S, Z.div_small by lia. reflexivity.
Qed.

(** On a 32-bit accumulator the loop body runs at most twice. *)
Lemma fold_carries_closed s :
  0 <= s < 4294967296 ->
  fold_carries s =
    if decide (s < 65536) then s
    else if decide (s mod 65536 + s / 65536 < 65536)
         then s mod 65536 + s / 65536
         else s mod 65536 + s / 65536 - 65535.
Proof.
  intros Hs. unfold fold_carries.
  pose proof (Z.div_mod s 65536 ltac:(lia)) as Hdm.
  pose proof (Z.mod_pos_bound s 65536 ltac:(lia)) as Hm.
  assert (0 <= s / 65536 < 65536) as Hd
    by (split; [apply Z.div_pos; lia | apply Z.div_lt_upper_bound; lia]).
  change 32%nat with (S (S 30)).
  rewrite fold_loop_S.
  destruct (Z.eqb_spec (s / 65536) 0) as [E|E].
  - rewrite decide_True by lia. reflexivity.
  - rewrite decide_False by lia.
    unfold wrap32. rewrite (Z.mod_small (_ + _)) by lia.
    remember (s mod 65536 + s / 65536) as f1 eqn:Hf1.
    destruct (decide (f1 < 65536)).
    + apply fold_loop_small. lia.
    + rewrite fold_loop_S.
      assert (f1 / 65536 = 1) as ->
        by (symmetry; apply (Z.div_unique f1 65536 1 (f1 - 65536)); lia).
      assert (f1 mod 65536 = f1 - 65536) as ->
        by (symmetry; apply (Z.mod_unique f1 65536 1 (f1 - 65536)); lia).
      change (Z.eqb 1 0) with false. cbv iota.
      unfold wrap32. rewrite Z.mod_small by lia.
      rewrite fold_loop_small by lia. lia.
Qed.

(** The loop has left by itself well before the fuel ends: more fuel changes
    nothing, and no carry is left. *)
Lemma fold_carries_exits s fuel :
  0 <= s < 4294967296 ->
  (2 <= fuel)%nat ->
  fold_loop fuel s = fold_carries s /\ Z.shiftr (fold_carries s) 16 = 0.
Proof.
  intros Hs Hfuel.
  pose proof (Z.div_mod s 65536 ltac:(lia)) as Hdm.
  pose proof (Z.mod_pos_bound s 65536 ltac:(lia)) as Hm.
  assert (0 <= s / 65536 < 65536) as Hd
    by (split; [apply Z.div_pos; lia | apply Z.div_lt_upper_bound; lia]).
  assert (0 <= fold_carries s < 65536) as Hr.
  { rewrite fold_carries_closed by done. repeat case_decide; lia. }
  split; [|rewrite shiftr16; apply Z.div_small; exact Hr].
  rewrite fold_carries_closed by done.
  destruct fuel as [|[|fuel]]; [lia..|].
  rewrite fold_loop_S.
  destruct (Z.eqb_spec (s / 65536) 0) as [E|E].
  - rewrite decide_True by lia. reflexivity.
  - rewrite decide_False by lia.
    unfold wrap32. rewrite (Z.mod_small (_ + _)) by lia.
    remember (s mod 65536 + s / 65536) as f1 eqn:Hf1.
    destruct (decide (f1 < 65536)).
    + apply fold_loop_small. lia.
    + rewrite fold_loop_S.
      assert (f1 / 65536 = 1) as ->
        by (symmetry; apply (Z.div_unique f1 65536 1 (f1 - 65536)); lia).
      assert (f1 mod 65536 = f1 - 65536) as ->
        by (symmetry; apply (Z.mod_unique f1 65536 1 (f1 - 65536)); lia).
      change (Z.eqb 1 0) with false. cbv iota.
      unfold wrap32. rewrite Z.mod_small by lia.
      rewrite fold_loop_small by lia. lia.
Qed.

Lemma fold_carries_range s :
  0 <= s < 4294967296 -> 0 <= fold_carries s < 65536.
Proof.
  intros Hs. rewrite fold_carries_closed by done.
  pose proof (Z.div_mod s 65536 ltac:(lia)).
  pose proof (Z.mod_pos_bound s 65536 ltac:(lia)).
  assert (0 <= s / 65536 < 65536)
    by (split; [apply Z.div_pos; lia | apply Z.div_lt_upper_bound; lia]).
  repeat case_decide; lia.
Qed.

Lemma ones_sum16_range data : 0 <= ones_sum16 data < 65536.
Proof. apply fold_carries_range, sum_words_range. Qed.

Lemma lnot_wrap16 s : 0 <= s < 65536 -> wrap16 (Z.lnot s) = 65535 - s.
Proof.
  intros Hs. unfold wrap16.
  replace (Z.lnot s) with ((65535 - s) + (-1) * 65536)
    by (unfold Z.lnot; lia).
  rewrite Z.mod_add by lia. apply Z.mod_small. lia.
Qed.

Lemma checksum16_complement data : checksum16 data = 65535 - ones_sum16 data.
Proof. apply lnot_wrap16, ones_sum16_range. Qed.

Lemma checksum16_range data : 0 <= checksum16 data < 65536.
Proof. rewrite checksum16_complement. pose proof (ones_sum16_range data). lia. Qed.

(** Adding the complement of the folded sum to the accumulator makes the
    fold come out as all ones. *)
Lemma fold_carries_plus_complement s :
  0 <= s < 4294967296 ->
  s + (65535 - fold_carries s) < 4294967296 /\
  fold_carries (s + (65535 - fold_carries s)) = 65535.
Proof.
  intros Hs.
  pose proof (fold_carries_range s Hs) as Hf.
  rewrite (fold_carries_closed s Hs) in *.
  pose proof (Z.div_mod s 65536 ltac:(lia)) as Hdm.
  pose proof (Z.mod_pos_bound s 65536 ltac:(lia)) as Hm.
  assert (0 <= s / 65536 < 65536) as Hd
    by (split; [apply Z.div_pos; lia | apply Z.div_lt_upper_bound; lia]).
  remember (s / 65536) as hi. remember (s mod 65536) as lo.
  assert (forall t q r, 0 <= r < 65536 -> 0 <= q < 65536 -> t = 65536 * q + r ->
            r + q = 65535 -> t < 4294967296 /\ fold_carries t = 65535) as Hkey.
  { intros t q r Hr Hq -> Hrq. split; [lia|].
    rewrite fold_carries_closed by lia.
    assert ((65536 * q + r) / 65536 = q) as ->
      by (symmetry; apply (Z.div_unique _ 65536 q r); lia).
    assert ((65536 * q + r) mod 65536 = r) as ->
      by (symmetry; apply (Z.mod_unique _ 65536 q r); lia).
    repeat case_decide; lia. }
  repeat case_decide.
  - apply (Hkey _ 0 65535); lia.
  - apply (Hkey _ hi (65535 - hi)); lia.
  - destruct (decide (hi = 65535)) as [->|Hne].
    + split; [lia|].
      replace (s + _) with 4294967295 by lia. reflexivity.
    + apply (Hkey _ (hi + 1) (65534 - hi)); lia.
Qed.

Lemma raw_sum_set_checksum packet c :
  packet !! 2%nat = Some x00 -> packet !! 3%nat = Some x00 ->
  0 <= c < 65536 ->
  raw_sum (set_checksum packet c) = raw_sum packet + c.
Proof.
  intros H2 H3 Hc.
  destruct packet as [|b0 [|b1 [|b2 [|b3 rest]]]]; try discriminate.
  simpl in H2, H3. injection H2 as ->. injection H3 as ->.
  unfold set_checksum, memcpy, bytes16. cbn [take drop length Nat.add app].
  rewrite drop_0.
  change (raw_sum (b0 :: b1 :: ?a :: ?b :: rest))
    with (load16 b0 b1 + (load16 a b + raw_sum rest)).
  cbn [raw_sum]. rewrite load16_bytes16 by done.
  unfold load16 at 3. rewrite u8_x00. lia.
Qed.

(** Appending a zero byte to a buffer of odd length leaves the accumulator
    as it is: the lone last byte already counts as the word (b, 0). *)
Lemma sum_words_pad data : forall acc,
  Nat.odd (length data) = true ->
  sum_words acc (data ++ [x00]) = sum_words acc data.
Proof.
  induction data as [|b|b0 b1 l IH] using list_pair_ind; intros acc Hodd.
  - discriminate.
  - simpl. unfold load16. rewrite u8_x00. f_equal. lia.
  - change ((b0 :: b1 :: l) ++ [x00]) with (b0 :: b1 :: (l ++ [x00])).
    change (sum_words acc (b0 :: b1 :: ?t))
      with (sum_words (wrap32 (acc + load16 b0 b1)) t).
    apply IH. exact Hodd.
Qed.

(** ** The Echo Request *)

Lemma byte_of_Z_mod z : byte_of_Z (z mod 256) = byte_of_Z z.
Proof. unfold byte_of_Z. rewrite Z.mod_mod by lia. reflexivity. Qed.

(** [htons] followed by a store in host order puts the high byte first. *)
Lemma bytes16_htons x :
  bytes16 (htons x) = [byte_of_Z (x / 256); byte_of_Z x].
Proof.
  unfold bytes16, htons.
  pose proof (Z.mod_pos_bound x 256 ltac:(lia)).
  pose proof (Z.mod_pos_bound (x / 256) 256 ltac:(lia)).
  f_equal; [|f_equal].
  - rewrite <- (byte_of_Z_mod (_ + _)), <- (byte_of_Z_mod (x / 256)). f_equal.
    symmetry. apply (Z.mod_unique _ 256 (x mod 256)); lia.
  - rewrite <- (byte_of_Z_mod x). f_equal.
    symmetry. apply (Z.div_unique _ 256 _ ((x / 256) mod 256)); lia.
Qed.

Lemma echo_request_closed p id seq tk n :
  echo_request p id seq tk n =
    set_checksum (echo_request_unsummed id seq tk n)
                 (checksum16 (echo_request_unsummed id seq tk n)).
Proof.
  assert (byte_of_Z 8 = x08) as H8 by reflexivity.
  assert (byte_of_Z 0 = x00) as H0 by reflexivity.
  destruct p; unfold echo_request, echo_request_win, echo_request_linux.
  - assert (memcpy (replicate (8 + n) x00) 0 (le_bytes 8 tk)
            = le_bytes 8 tk ++ replicate n x00) as ->.
    { unfold memcpy. cbn [take length le_bytes Nat.add app drop replicate].
      reflexivity. }
    assert (length (le_bytes 8 tk ++ replicate n x00) = (8 + n)%nat) as ->.
    { rewrite length_app, length_replicate. reflexivity. }
    assert (memcpy (memcpy (replicate (8 + (8 + n)) x00) 0
                      (header_bytes {| icmp_type := 8; icmp_code := 0;
                          icmp_checksum := 0; icmp_id := htons id;
                          icmp_seq := htons seq |}))
                   8 (le_bytes 8 tk ++ replicate n x00)
            = echo_request_unsummed id seq tk n) as ->; [|reflexivity].
    unfold header_bytes. cbn [icmp_type icmp_code icmp_checksum icmp_id icmp_seq].
    rewrite !bytes16_htons. unfold bytes16 at 1.
    change (0 / 256) with 0. rewrite H8, H0.
    unfold memcpy.
    cbn [take length Nat.add app drop replicate].
    rewrite length_app, length_replicate.
    cbn [length le_bytes Nat.add].
    rewrite (drop_ge (_ :: _))
      by (cbn [length]; rewrite length_replicate; lia).
    rewrite app_nil_r. reflexivity.
  - assert (set_checksum
              (memcpy (memcpy (memcpy (memcpy (memcpy
                 (replicate (8 + 8 + n) x00) 0 [byte_of_Z 8]) 1 [byte_of_Z 0])
                 4 (bytes16 (htons id))) 6 (bytes16 (htons seq)))
                 8 (le_bytes 8 tk)) 0
            = echo_request_unsummed id seq tk n) as ->; [|reflexivity].
    rewrite !bytes16_htons, H8, H0.
    unfold set_checksum, bytes16. change (0 / 256) with 0. rewrite H0.
    unfold memcpy.
    cbn [take length le_bytes Nat.add app drop replicate].
    reflexivity.
Qed.

(** ** Promises and futures *)

Lemma try_set_value_lookup p v h q :
  try_set_value p v h !! q =
    if decide (q = p) then settle v <$> h !! q else h !! q.
Proof.
  unfold try_set_value, set_value, settle.
  destruct (decide (q = p)) as [->|Hne].
  - destruct (h !! p) as [s|] eqn:E; [|by rewrite E].
    destruct (status s) eqn:Es; rewrite ?lookup_insert_eq, ?E; simpl;
      rewrite ?Es; reflexivity.
  - destruct (h !! p) as [s|] eqn:E; [|reflexivity].
    destruct (status s); rewrite ?lookup_insert_ne by done; reflexivity.
Qed.

Lemma promise_destroy_lookup p h q :
  promise_destroy p h !! q =
    if decide (q = p) then abandon <$> h !! q else h !! q.
Proof.
  unfold promise_destroy, abandon.
  destruct (decide (q = p)) as [->|Hne].
  - destruct (h !! p) as [s|] eqn:E; [|by rewrite E].
    destruct (status s) eqn:Es; rewrite ?lookup_insert_eq, ?E; simpl;
      rewrite ?Es; reflexivity.
  - destruct (h !! p) as [s|] eqn:E; [|reflexivity].
    destruct (status s); rewrite ?lookup_insert_ne by done; reflexivity.
Qed.

Lemma drain_one_lookup pl p h q :
  drain_one pl p h !! q =
    if decide (q = p) then drained pl <$> h !! q else h !! q.
Proof.
  destruct pl; unfold drain_one, drained.
  - unfold get_future.
    destruct (h !! p) as [s|] eqn:E.
    + destruct (retrieved s) eqn:Er.
      * case_decide; subst; rewrite ?E; simpl; rewrite ?Er; reflexivity.
      * rewrite try_set_value_lookup.
        case_decide; subst.
        -- rewrite lookup_insert_eq, E. simpl. rewrite Er. reflexivity.
        -- rewrite lookup_insert_ne by done. reflexivity.
    + case_decide; subst; rewrite ?E; reflexivity.
  - apply try_set_value_lookup.
Qed.

Lemma settle_idem v s : settle v (settle v s) = settle v s.
Proof. unfold settle. destruct (status s) eqn:E; simpl; rewrite ?E; done. Qed.

Lemma abandon_idem s : abandon (abandon s) = abandon s.
Proof. unfold abandon. destruct (status s) eqn:E; simpl; rewrite ?E; done. Qed.

Lemma drained_idem pl s : drained pl (drained pl s) = drained pl s.
Proof.
  destruct pl; simpl; [|apply settle_idem].
  destruct (retrieved s) eqn:Er; [by rewrite Er|].
  unfold settle; simpl. destruct (status s); reflexivity.
Qed.

(** The drain loop touches the promises of the table, each as one round
    does, and nothing else. *)
Lemma drain_all_lookup pl entries h q :
  drain_all pl entries h !! q =
    if decide (q ∈ entries.*2) then drained pl <$> h !! q else h !! q.
Proof.
  induction entries as [|[k p] entries IH]; [reflexivity|].
  change (drain_all pl ((k, p) :: entries) h)
    with (drain_one pl p (drain_all pl entries h)).
  rewrite fmap_cons. cbn [snd].
  - rewrite drain_one_lookup, IH.
    destruct (decide (q = p)) as [->|Hne].
    + rewrite (decide_True (P := p ∈ p :: _)) by apply list_elem_of_here.
      case_decide; [|reflexivity].
      destruct (h !! p); simpl; [|reflexivity]. by rewrite drained_idem.
    + destruct (decide (q ∈ entries.*2)).
      * rewrite decide_True by (by apply list_elem_of_further). reflexivity.
      * rewrite decide_False by (by apply not_elem_of_cons). reflexivity.
Qed.

Lemma destroy_all_lookup entries h q :
  destroy_all entries h !! q =
    if decide (q ∈ entries.*2) then abandon <$> h !! q else h !! q.
Proof.
  induction entries as [|[k p] entries IH]; [reflexivity|].
  change (destroy_all ((k, p) :: entries) h)
    with (promise_destroy p (destroy_all entries h)).
  rewrite fmap_cons. cbn [snd].
  - rewrite promise_destroy_lookup, IH.
    destruct (decide (q = p)) as [->|Hne].
    + rewrite (decide_True (P := p ∈ p :: _)) by apply list_elem_of_here.
      case_decide; [|reflexivity].
      destruct (h !! p); simpl; [|reflexivity]. by rewrite abandon_idem.
    + destruct (decide (q ∈ entries.*2)).
      * rewrite decide_True by (by apply list_elem_of_further). reflexivity.
      * rewrite decide_False by (by apply not_elem_of_cons). reflexivity.
Qed.

Lemma table_range (m : gmap Key nat) k p :
  m !! k = Some p -> p ∈ (map_to_list m).*2.
Proof.
  intros H. apply list_elem_of_fmap. exists (k, p). split; [done|].
  by apply elem_of_map_to_list.
Qed.

(** [shutdown_engine], one shared state at a time. *)
Lemma shutdown_heap_lookup hst st q :
  heap (shutdown_engine hst st) !! q =
    if decide (q ∈ (map_to_list (g_waiters st)).*2)
    then (fun s => abandon (drained (pf hst) s)) <$> heap st !! q
    else heap st !! q.
Proof.
  unfold shutdown_engine. cbn [heap].
  rewrite destroy_all_lookup, drain_all_lookup.
  case_decide; [|reflexivity].
  destruct (heap st !! q); reflexivity.
Qed.

(** ** [ping_once_engine]: the engine path *)

Lemma get_future_new h :
  get_future (fst (promise_new h)) (snd (promise_new h)) =
    inr (<[fresh (dom h) := {| retrieved := true; status := Pending |}]> h).
Proof.
  unfold promise_new, get_future. cbn [fst snd].
  rewrite lookup_insert_eq. cbn [retrieved status].
  by rewrite insert_insert_eq.
Qed.

Lemma ping_begin_engine hst ip timeout_ms payload_size ttl_opt io st dst s :
  inet_pton hst ip = Some dst ->
  is_local_ipv4_addr hst dst = false ->
  g_sock st = Some s ->
  0 <= payload_size ->
  ping_begin hst ip timeout_ms payload_size ttl_opt io st =
    let k := mkKey (probe_id hst) (g_seq st) in
    let p := fresh (dom (heap st)) in
    let reg := emplace hst k p
                 (set_waiters (g_waiters st) (heap_with_waiter (heap st))
                    (set_seq (wrap16 (g_seq st + 1)) st)) in
    let s' := if 0 <? ttl_opt then {| ip_ttl := Some ttl_opt |} else s in
    let st2 := log_event
                 (Sendto dst (echo_request (pf hst) (probe_id hst) (g_seq st)
                                (ticks io) (Z.to_nat payload_size)) (ip_ttl s'))
                 (set_sock (Some s') (snd reg)) in
    if sendto_ok io
    then (Awaiting {| w_key := k; w_fut := p; w_t_send := t_send io;
                      w_owns_promise := fst reg |}, st2)
    else (Done (with_error empty_result (sendto_failed (pf hst))),
          drop_local (fst reg) p (erase k st2)).
Proof.
  intros Hip Hloc Hsock Hsize.
  unfold ping_begin. rewrite Hip, Hloc, Hsock.
  unfold fetch_add_seq.
  pose proof (get_future_new (heap st)) as Hf.
  unfold promise_new in *. cbn [fst snd] in Hf.
  cbn [heap set_seq g_waiters]. rewrite Hf.
  fold (heap_with_waiter (heap st)).
  destruct (emplace _ _ _ _) as [owns st1] eqn:E.
  assert ((payload_size <? 0) = false) as -> by lia.
  cbn [fst snd]. reflexivity.
Qed.

(** ** Frame lemmas for the table operations *)

Lemma emplace_frame hst k p st :
  g_sock (snd (emplace hst k p st)) = g_sock st /\
  g_running (snd (emplace hst k p st)) = g_running st /\
  g_seq (snd (emplace hst k p st)) = g_seq st /\
  net_log (snd (emplace hst k p st)) = net_log st.
Proof.
  unfold emplace. destruct (g_waiters st !! k); [destruct (emplace_builds_first hst)|];
    repeat split; reflexivity.
Qed.

Lemma erase_frame k st :
  g_sock (erase k st) = g_sock st /\
  g_running (erase k st) = g_running st /\
  g_seq (erase k st) = g_seq st /\
  net_log (erase k st) = net_log st.
Proof. unfold erase. destruct (g_waiters st !! k); repeat split; reflexivity. Qed.

Lemma drop_local_frame owns p st :
  g_sock (drop_local owns p st) = g_sock st /\
  g_running (drop_local owns p st) = g_running st /\
  g_seq (drop_local owns p st) = g_seq st /\
  net_log (drop_local owns p st) = net_log st /\
  g_waiters (drop_local owns p st) = g_waiters st.
Proof. destruct owns; repeat split; reflexivity. Qed.

Lemma erase_lookup k st : g_waiters (erase k st) !! k = None.
Proof.
  unfold erase. destruct (g_waiters st !! k) eqn:E; [|exact E].
  cbn [g_waiters set_waiters]. apply lookup_delete_eq.
Qed.

(** What the engine path hands to [sendto], and with which TTL option. *)
Lemma ping_begin_engine_log hst ip timeout_ms payload_size ttl_opt io st dst s :
  inet_pton hst ip = Some dst ->
  is_local_ipv4_addr hst dst = false ->
  g_sock st = Some s ->
  0 <= payload_size ->
  let st' := snd (ping_begin hst ip timeout_ms payload_size ttl_opt io st) in
  let s' := if 0 <? ttl_opt then {| ip_ttl := Some ttl_opt |} else s in
  net_log st' =
    Sendto dst (echo_request (pf hst) (probe_id hst) (g_seq st) (ticks io)
                  (Z.to_nat payload_size)) (ip_ttl s') :: net_log st
  /\ g_sock st' = Some s'.
Proof.
  intros Hip Hloc Hsock Hsize.
  rewrite (ping_begin_engine _ _ _ _ _ _ _ _ _ Hip Hloc Hsock Hsize).
  cbv zeta.
  set (reg := emplace _ _ _ _).
  destruct (emplace_frame hst (mkKey (probe_id hst) (g_seq st))
              (fresh (dom (heap st)))
              (set_waiters (g_waiters st) (heap_with_waiter (heap st))
                 (set_seq (wrap16 (g_seq st + 1)) st)))
    as (Hs & _ & _ & Hl).
  fold reg in Hs, Hl.
  destruct (sendto_ok io); cbn [snd].
  - cbn [net_log log_event g_sock set_sock]. rewrite Hl. done.
  - destruct (drop_local_frame (fst reg)
                (fresh (dom (heap st)))
                (erase (mkKey (probe_id hst) (g_seq st))
                   (log_event
                      (Sendto dst
                         (echo_request (pf hst) (probe_id hst) (g_seq st)
                            (ticks io) (Z.to_nat payload_size))
                         (ip_ttl (if 0 <? ttl_opt
                                  then {| ip_ttl := Some ttl_opt |} else s)))
                      (set_sock
                         (Some (if 0 <? ttl_opt
                                then {| ip_ttl := Some ttl_opt |} else s))
                         (snd reg)))))
      as (Hs' & _ & _ & Hl' & _).
    rewrite Hs', Hl'.
    match goal with |- context [erase ?k ?x] =>
      destruct (erase_frame k x) as (Hs'' & _ & _ & Hl'') end.
    rewrite Hs'', Hl''.
    cbn [net_log log_event g_sock set_sock]. rewrite Hl. done.
Qed.

Lemma echo_request_bytes p id seq tk n :
  echo_request p id seq tk n =
    [x08; x00;
     byte_of_Z (checksum16 (echo_request_unsummed id seq tk n));
     byte_of_Z (checksum16 (echo_request_unsummed id seq tk n) / 256);
     byte_of_Z (id / 256); byte_of_Z id; byte_of_Z (seq / 256); byte_of_Z seq]
    ++ le_bytes 8 tk ++ replicate n x00.
Proof.
  rewrite echo_request_closed.
  generalize (checksum16 (echo_request_unsummed id seq tk n)). intros c.
  reflexivity.
Qed.

Lemma echo_request_length p id seq tk n :
  length (echo_request p id seq tk n) = (16 + n)%nat.
Proof.
  rewrite echo_request_bytes, !length_app, length_replicate. reflexivity.
Qed.

(* --------------------------------------------------------------------- *)
(** ** The checksum *)
(* --------------------------------------------------------------------- *)

(** A buffer whose words add up to those of [packet] plus the checksum of
    [packet] sums to all ones. *)
Lemma ones_sum16_with_checksum (packet packet' : list byte) :
  raw_sum packet' = raw_sum packet + checksum16 packet ->
  ones_sum16 packet' = 0xFFFF.
Proof.
  intros Hraw. unfold ones_sum16 at 1.
  rewrite sum_words_raw, Hraw by lia.
  rewrite checksum16_complement. unfold ones_sum16.
  rewrite (sum_words_raw packet) by lia.
  rewrite !Z.add_0_l.
  destruct (fold_carries_plus_complement (wrap32 (raw_sum packet))
              (wrap32_range _)) as [Hlt Hfold].
  pose proof (wrap32_range (raw_sum packet)) as Hr.
  pose proof (fold_carries_range _ Hr) as Hf.
  assert (wrap32 (raw_sum packet
                  + (65535 - fold_carries (wrap32 (raw_sum packet))))
          = wrap32 (raw_sum packet)
            + (65535 - fold_carries (wrap32 (raw_sum packet)))) as ->.
  { unfold wrap32 at 1. rewrite <- Zplus_mod_idemp_l.
    fold (wrap32 (raw_sum packet)). apply Z.mod_small. lia. }
  exact Hfold.
Qed.

(** The request the engine builds sums to all ones. *)
Lemma echo_request_sum p id seq tk n :
  ones_sum16 (echo_request p id seq tk n) = 0xFFFF.
Proof.
  rewrite echo_request_closed.
  apply (ones_sum16_with_checksum (echo_request_unsummed id seq tk n)).
  apply raw_sum_set_checksum; [reflexivity | reflexivity | apply checksum16_range].
Qed.

(** Folding the carries does not change the sum modulo 65535. *)
Lemma fold_carries_congruent s :
  0 <= s < 4294967296 -> (s - fold_carries s) mod 65535 = 0.
Proof.
  intros Hs. rewrite fold_carries_closed by done.
  pose proof (Z.div_mod s 65536 ltac:(lia)) as Hdm.
  repeat case_decide.
  - by rewrite Z.sub_diag.
  - replace (s - _) with (s / 65536 * 65535) by lia. apply Z.mod_mul. lia.
  - replace (s - _) with ((s / 65536 + 1) * 65535) by lia. apply Z.mod_mul. lia.
Qed.

(** *** The end-around-carry sum *)

Lemma word16_range o b0 b1 : 0 <= word16 o b0 b1 <= 65535.
Proof.
  pose proof (u8_range b0). pose proof (u8_range b1).
  destruct o; unfold word16; lia.
Qed.

Lemma raw_words_nonneg o data : 0 <= raw_words o data.
Proof.
  induction data as [|b|b0 b1 l IH] using list_pair_ind; cbn [raw_words].
  - lia.
  - pose proof (word16_range o b x00). lia.
  - pose proof (word16_range o b0 b1). lia.
Qed.

(** Adding with end-around carry keeps 16 bits, gives zero only for
    0 + 0, and changes the plain sum by a multiple of 0xFFFF. *)
Lemma add_end_around_spec a b :
  0 <= a <= 65535 -> 0 <= b <= 65535 ->
  0 <= add_end_around a b <= 65535 /\
  (add_end_around a b = 0 <-> a + b = 0) /\
  exists k, a + b = add_end_around a b + 65535 * k.
Proof.
  intros Ha Hb. unfold add_end_around.
  pose proof (Z.div_mod (a + b) 65536 ltac:(lia)) as Hdm.
  pose proof (Z.mod_pos_bound (a + b) 65536 ltac:(lia)) as Hm.
  set (q := (a + b) / 65536) in *. set (m := (a + b) mod 65536) in *.
  assert (q = 0 \/ q = 1) as Hq by lia.
  split; [lia|]. split; [lia|]. exists q. lia.
Qed.

Lemma end_around_sum_spec o data : forall acc,
  0 <= acc <= 65535 ->
  0 <= end_around_sum o acc data <= 65535 /\
  (end_around_sum o acc data = 0 <-> acc + raw_words o data = 0) /\
  exists k, acc + raw_words o data = end_around_sum o acc data + 65535 * k.
Proof.
  induction data as [|b|b0 b1 l IH] using list_pair_ind; intros acc Hacc.
  - cbn [end_around_sum raw_words]. split; [lia|]. split; [lia|]. exists 0. lia.
  - cbn [end_around_sum raw_words].
    apply add_end_around_spec; [exact Hacc | apply word16_range].
  - change (end_around_sum o acc (b0 :: b1 :: l))
      with (end_around_sum o (add_end_around acc (word16 o b0 b1)) l).
    change (raw_words o (b0 :: b1 :: l)) with (word16 o b0 b1 + raw_words o l).
    pose proof (word16_range o b0 b1) as Hw.
    pose proof (raw_words_nonneg o l) as Hl.
    destruct (add_end_around_spec acc (word16 o b0 b1) Hacc Hw)
      as (Hr & Hz & k1 & Hk1).
    destruct (IH _ Hr) as (Hr' & Hz' & k2 & Hk2).
    split; [exact Hr'|]. split; [|exists (k1 + k2); lia].
    rewrite Hz'. split; intros H0.
    + assert (add_end_around acc (word16 o b0 b1) = 0) as E by lia.
      apply Hz in E. lia.
    + assert (acc + word16 o b0 b1 = 0) as E by lia.
      apply Hz in E. lia.
Qed.

(** The words in either order against the host words of [checksum16]:
    swapping the bytes of every word multiplies the sum by 256 modulo
    0xFFFF. *)
Lemma raw_words_raw_sum o data :
  (raw_words o data = 0 <-> raw_sum data = 0) /\
  exists k, (match o with HostOrder => 1 | NetworkOrder => 256 end) * raw_sum data
            = raw_words o data + 65535 * k.
Proof.
  induction data as [|b|b0 b1 l IH] using list_pair_ind.
  - cbn [raw_words raw_sum]. split; [done|]. exists 0. destruct o; lia.
  - cbn [raw_words raw_sum]. unfold word16. rewrite u8_x00.
    pose proof (u8_range b).
    destruct o; (split; [lia|]); exists 0; lia.
  - change (raw_words o (b0 :: b1 :: l)) with (word16 o b0 b1 + raw_words o l).
    change (raw_sum (b0 :: b1 :: l)) with (load16 b0 b1 + raw_sum l).
    pose proof (raw_words_nonneg o l). pose proof (raw_sum_nonneg l).
    pose proof (u8_range b0). pose proof (u8_range b1).
    destruct IH as (Hz & k & Hk).
    unfold word16, load16.
    destruct o; (split; [lia|]).
    + exists k. lia.
    + exists (u8 b1 + k). lia.
Qed.

(** A buffer whose host words add up to a positive multiple of 0xFFFF sums
    to 0xFFFF with end-around carry, in either byte order. *)
Lemma spec_ones_sum16_all_ones o data :
  0 < raw_sum data ->
  (exists j, raw_sum data = 65535 * j) ->
  spec_ones_sum16 o data = 0xFFFF.
Proof.
  intros Hpos [j Hj]. unfold spec_ones_sum16.
  destruct (end_around_sum_spec o data 0 ltac:(lia)) as (Hr & Hz & k & Hk).
  destruct (raw_words_raw_sum o data) as (Hz' & k' & Hk').
  assert (end_around_sum o 0 data <> 0) as Hne.
  { rewrite Hz, Z.add_0_l, Hz'. lia. }
  destruct o; lia.
Qed.

Lemma raw_sum_words_bound data :
  raw_sum data <= 65535 * ((Z.of_nat (length data) + 1) / 2).
Proof.
  induction data as [|b|b0 b1 l IH] using list_pair_ind.
  - reflexivity.
  - cbn [raw_sum length]. pose proof (u8_range b).
    change ((Z.of_nat 1 + 1) / 2) with 1. lia.
  - change (raw_sum (b0 :: b1 :: l)) with (load16 b0 b1 + raw_sum l).
    pose proof (load16_range b0 b1).
    change (length (b0 :: b1 :: l)) with (S (S (length l))).
    replace ((Z.of_nat (S (S (length l))) + 1) / 2)
      with ((Z.of_nat (length l) + 1) / 2 + 1).
    + lia.
    + replace (Z.of_nat (S (S (length l))) + 1)
        with (Z.of_nat (length l) + 1 + 1 * 2) by lia.
      rewrite Z.div_add by lia. reflexivity.
Qed.

(** While the 32-bit accumulator does not wrap, the host words of a buffer
    and its checksum add up to a positive multiple of 0xFFFF. *)
Lemma checksum16_completes data :
  raw_sum data < 4294967296 ->
  0 < raw_sum data + checksum16 data /\
  exists j, raw_sum data + checksum16 data = 65535 * j.
Proof.
  intros Hlt. pose proof (raw_sum_nonneg data) as Hn.
  rewrite checksum16_complement. unfold ones_sum16.
  rewrite sum_words_raw, Z.add_0_l by lia.
  unfold wrap32. rewrite Z.mod_small by lia.
  pose proof (fold_carries_range (raw_sum data) ltac:(lia)) as Hf.
  pose proof (fold_carries_congruent (raw_sum data) ltac:(lia)) as Hc.
  apply Z.mod_divide in Hc; [|lia]. destruct Hc as [q Hq].
  split.
  - destruct (Z.eq_dec (raw_sum data) 0) as [E|E]; [|lia].
    rewrite E. change (fold_carries 0) with 0. lia.
  - exists (q + 1). lia.
Qed.

Lemma raw_sum_ff n : raw_sum (replicate (2 * n) xff) = 65535 * Z.of_nat n.
Proof.
  induction n as [|n IH]; [reflexivity|].
  replace (2 * S n)%nat with (S (S (2 * n))) by lia.
  change (raw_sum (replicate (S (S (2 * n))) xff))
    with (load16 xff xff + raw_sum (replicate (2 * n) xff)).
  rewrite IH. change (load16 xff xff) with 65535. lia.
Qed.

Lemma raw_sum_ff_buffer n : raw_sum (ff_buffer n) = 65535 * (Z.of_nat n + 1).
Proof.
  unfold ff_buffer.
  change (raw_sum ([xff; xff; x00; x00] ++ replicate (2 * n) xff))
    with (load16 xff xff + (load16 x00 x00 + raw_sum (replicate (2 * n) xff))).
  rewrite raw_sum_ff.
  change (load16 xff xff) with 65535. change (load16 x00 x00) with 0. lia.
Qed.

(** C5, as the specification words it, fails on a long buffer.  On the
    buffer of 131078 bytes made of 0xFFFF, a zero checksum field and 65537
    more words 0xFFFF, the 32-bit accumulator of [checksum16] wraps around:
    the function returns 1, and the buffer with 1 in its checksum field
    sums, with end-around carry, to 1 (host order) or 0x0100 (network
    order), not to 0xFFFF. *)
Lemma long_buffer_breaks_round_trip :
  Z.of_nat (length long_buffer) = 131078 /\
  long_buffer !! 2%nat = Some x00 /\
  long_buffer !! 3%nat = Some x00 /\
  checksum16 long_buffer = 1 /\
  spec_ones_sum16 HostOrder
    (set_checksum long_buffer (checksum16 long_buffer)) = 1 /\
  spec_ones_sum16 NetworkOrder
    (set_checksum long_buffer (checksum16 long_buffer)) = 256.
Proof.
  unfold long_buffer.
  assert (Z.of_nat (Z.to_nat 65537) = 65537) as Hn by lia.
  revert Hn. generalize (Z.to_nat 65537) as n. intros n Hn.
  assert (checksum16 (ff_buffer n) = 1) as Hc.
  { rewrite checksum16_complement. unfold ones_sum16.
    rewrite sum_words_raw, Z.add_0_l, raw_sum_ff_buffer, Hn by lia.
    reflexivity. }
  assert (raw_sum (set_checksum (ff_buffer n) 1) = 65535 * 65538 + 1) as Hraw.
  { rewrite raw_sum_set_checksum, raw_sum_ff_buffer, Hn by (reflexivity || lia).
    reflexivity. }
  split.
  { unfold ff_buffer. rewrite length_app, length_replicate.
    cbn [length]. lia. }
  split; [reflexivity|]. split; [reflexivity|]. split; [exact Hc|].
  rewrite Hc. unfold spec_ones_sum16.
  split.
  - destruct (end_around_sum_spec HostOrder (set_checksum (ff_buffer n) 1) 0
                ltac:(lia)) as (Hr & _ & k & Hk).
    destruct (raw_words_raw_sum HostOrder (set_checksum (ff_buffer n) 1))
      as (_ & k' & Hk').
    rewrite Hraw in Hk'. lia.
  - destruct (end_around_sum_spec NetworkOrder (set_checksum (ff_buffer n) 1) 0
                ltac:(lia)) as (Hr & _ & k & Hk).
    destruct (raw_words_raw_sum NetworkOrder (set_checksum (ff_buffer n) 1))
      as (_ & k' & Hk').
    rewrite Hraw in Hk'. lia.
Qed.

(** C5 — checksum round trip.  For every buffer of at most 131076 bytes
    whose checksum field (the two bytes at offset 2, as in the ICMP header)
    is zero, storing [checksum16] of the buffer in that field and summing
    the whole buffer as 16-bit words with end-around carry gives 0xFFFF,
    whichever byte order the words are read in. *)
Theorem checksum_round_trip (o : byte_order) (packet : list byte) :
  packet !! 2%nat = Some x00 ->
  packet !! 3%nat = Some x00 ->
  Z.of_nat (length packet) <= 131076 ->
  spec_ones_sum16 o (set_checksum packet (checksum16 packet)) = 0xFFFF.
Proof.
  intros H2 H3 Hlen.
  assert (raw_sum packet < 4294967296) as Hlt.
  { destruct packet as [|b0 [|b1 [|b2 [|b3 rest]]]]; try discriminate.
    cbn in H2, H3. injection H2 as ->. injection H3 as ->.
    change (raw_sum (b0 :: b1 :: x00 :: x00 :: rest))
      with (load16 b0 b1 + (load16 x00 x00 + raw_sum rest)).
    change (load16 x00 x00) with 0.
    pose proof (load16_range b0 b1). pose proof (raw_sum_words_bound rest) as Hb.
    cbn [length] in Hlen.
    assert ((Z.of_nat (length rest) + 1) / 2 <= 65536) as Hw.
    { apply Z.lt_succ_r, Z.div_lt_upper_bound; lia. }
    lia. }
  destruct (checksum16_completes packet Hlt) as [Hpos Hmul].
  apply spec_ones_sum16_all_ones;
    rewrite raw_sum_set_checksum by (done || apply checksum16_range); done.
Qed.

Lemma checksum_round_trip_witness :
  sample_buffer !! 2%nat = Some x00 /\ sample_buffer !! 3%nat = Some x00 /\
  Z.of_nat (length sample_buffer) <= 131076 /\
  spec_ones_sum16 NetworkOrder
    (set_checksum sample_buffer (checksum16 sample_buffer)) = 0xFFFF.
Proof.
  split; [reflexivity|]. split; [reflexivity|].
  split; [vm_compute; discriminate|].
  apply (checksum_round_trip NetworkOrder sample_buffer);
    [reflexivity | reflexivity | vm_compute; discriminate].
Defined.

(** C6 — trailing odd byte.  For a buffer of odd length, [checksum16] counts
    the last byte as the first byte of a final word whose second byte is
    zero (on the wire: the high-order byte of a zero-padded word): the
    checksum equals that of the buffer extended by one zero byte. *)
Theorem checksum16_odd_padding (data : list byte) :
  Nat.odd (length data) = true ->
  checksum16 (data ++ [x00]) = checksum16 data.
Proof.
  intros Hodd. unfold checksum16, ones_sum16.
  rewrite sum_words_pad by exact Hodd. reflexivity.
Qed.

Lemma checksum16_odd_padding_witness :
  Nat.odd (length [x08; x00; xff]) = true /\
  checksum16 ([x08; x00; xff] ++ [x00]) = checksum16 [x08; x00; xff].
Proof.
  split; [reflexivity|]. apply (checksum16_odd_padding [x08; x00; xff]). reflexivity.
Defined.

Example sample_probe_waits p :
  fst (sample_probe p) = Awaiting sample_waiter.
Proof. destruct p; vm_compute; reflexivity. Qed.

(* --------------------------------------------------------------------- *)
(** ** The Echo Request on the wire *)
(* --------------------------------------------------------------------- *)

(** C7, as the specification states it, fails: with [payload_size = 0] the
    request handed to [sendto] carries eight bytes after the 8-byte ICMP
    header, the tick count the engine puts there. *)
Lemma echo_request_carries_tick_count :
  exists dst packet t,
    net_log (snd (sample_probe Linux)) = [Sendto dst packet t] /\
    length (drop 8 packet) = 8%nat /\
    length (drop 8 packet) <> Z.to_nat 0.
Proof.
  eexists _, _, _. split; [vm_compute; reflexivity|].
  split; [reflexivity | discriminate].
Qed.

(** C7, amended.  The request a probe on the engine path hands to [sendto]
    is: type 8, code 0, the checksum (computed last, over the whole buffer
    with the checksum field zero), identifier and sequence number high byte
    first, then the 8-byte tick count of the engine, low byte first, then
    [payload_size] zero bytes; the bytes after the 8-byte header number
    [8 + payload_size]. *)
Theorem echo_request_on_the_wire hst ip timeout_ms payload_size ttl_opt io st dst s :
  inet_pton hst ip = Some dst ->
  is_local_ipv4_addr hst dst = false ->
  g_sock st = Some s ->
  0 <= payload_size ->
  let id := probe_id hst in
  let seq := g_seq st in
  let n := Z.to_nat payload_size in
  let zeroed :=
    [x08; x00; x00; x00; byte_of_Z (id / 256); byte_of_Z id;
     byte_of_Z (seq / 256); byte_of_Z seq]
    ++ le_bytes 8 (ticks io) ++ replicate n x00 in
  let c := checksum16 zeroed in
  let packet :=
    [x08; x00; byte_of_Z c; byte_of_Z (c / 256);
     byte_of_Z (id / 256); byte_of_Z id; byte_of_Z (seq / 256); byte_of_Z seq]
    ++ le_bytes 8 (ticks io) ++ replicate n x00 in
  (exists t, net_log (snd (ping_begin hst ip timeout_ms payload_size ttl_opt io st))
             = Sendto dst packet t :: net_log st)
  /\ Z.of_nat (length (drop 8 packet)) = 8 + payload_size
  /\ ones_sum16 packet = 0xFFFF.
Proof.
  intros Hip Hloc Hsock Hsize. cbv zeta.
  fold (echo_request_unsummed (probe_id hst) (g_seq st) (ticks io)
          (Z.to_nat payload_size)).
  rewrite <- (echo_request_bytes (pf hst)).
  split; [|split].
  - destruct (ping_begin_engine_log hst ip timeout_ms payload_size ttl_opt io
                st dst s Hip Hloc Hsock Hsize) as [Hlog _].
    eexists. exact Hlog.
  - rewrite length_drop, echo_request_length. lia.
  - apply echo_request_sum.
Qed.

Lemma echo_request_on_the_wire_witness :
  exists t,
    net_log (snd (sample_probe Windows)) =
      Sendto 117440522
        [x08; x00; xfd; xc6; x12; x34; x00; x01;
         xe8; x03; x00; x00; x00; x00; x00; x00] t
      :: net_log (sample_running Windows).
Proof.
  destruct (echo_request_on_the_wire (sample_host Windows) "10.0.0.7" 1000 0 (-1)
              sample_io (sample_running Windows) 117440522 {| ip_ttl := None |}
              eq_refl eq_refl eq_refl ltac:(lia)) as [[t Ht] _].
  exists t. exact Ht.
Defined.

(* --------------------------------------------------------------------- *)
(** ** The waiter table *)
(* --------------------------------------------------------------------- *)

Lemma resolve_waiter_absent k probe st :
  g_waiters st !! k = None -> resolve_waiter k probe st = (false, st).
Proof. intros H. unfold resolve_waiter. by rewrite H. Qed.

Lemma resolve_waiter_removes k probe st :
  g_waiters (snd (resolve_waiter k probe st)) !! k = None.
Proof.
  unfold resolve_waiter. destruct (g_waiters st !! k) eqn:E; [|exact E].
  cbn [snd g_waiters set_waiters]. apply lookup_delete_eq.
Qed.

Lemma resolve_waiter_present k probe st p s :
  g_waiters st !! k = Some p ->
  heap st !! p = Some s ->
  status s = Pending ->
  fst (resolve_waiter k probe st) = true /\
  g_waiters (snd (resolve_waiter k probe st)) = delete k (g_waiters st) /\
  heap (snd (resolve_waiter k probe st)) !! p
    = Some {| retrieved := retrieved s; status := Ready probe |}.
Proof.
  intros Hk Hp Hs. unfold resolve_waiter. rewrite Hk.
  cbn [fst snd g_waiters heap set_waiters]. split; [done|]. split; [done|].
  rewrite promise_destroy_lookup, try_set_value_lookup, !decide_True by done.
  rewrite Hp. cbn. unfold settle. rewrite Hs. reflexivity.
Qed.

(** C4 — at-most-once resolution.  When the dispatch block of the listener
    runs twice for one key, the second run finds the key absent, reports
    false and leaves the engine (the table and every shared state) as the
    first run left it; and if the key was registered with a pending waiter,
    the first run reports true, removes the entry and stores its outcome in
    that waiter, where the second run leaves it. *)
Theorem resolve_at_most_once k first second st :
  let r1 := resolve_waiter k first st in
  let r2 := resolve_waiter k second (snd r1) in
  fst r2 = false /\ snd r2 = snd r1 /\
  forall p s,
    g_waiters st !! k = Some p -> heap st !! p = Some s -> status s = Pending ->
    fst r1 = true /\
    g_waiters (snd r1) = delete k (g_waiters st) /\
    heap (snd r2) !! p = Some {| retrieved := retrieved s; status := Ready first |}.
Proof.
  cbv zeta.
  rewrite (resolve_waiter_absent k second _ (resolve_waiter_removes k first st)).
  cbn [fst snd]. split; [done|]. split; [done|].
  intros p s Hk Hp Hs. by apply resolve_waiter_present.
Qed.

Lemma resolve_at_most_once_witness :
  fst (resolve_waiter (mkKey 4660 1) empty_result (snd (sample_probe Linux))) = true /\
  fst (resolve_waiter (mkKey 4660 1) empty_result
         (snd (resolve_waiter (mkKey 4660 1) empty_result
                 (snd (sample_probe Linux))))) = false.
Proof.
  destruct (resolve_at_most_once (mkKey 4660 1) empty_result empty_result
              (snd (sample_probe Linux))) as (H2 & _ & H1).
  split; [|exact H2].
  destruct (H1 0%nat {| retrieved := true; status := Pending |}) as [H _];
    [vm_compute; reflexivity .. | exact H].
Defined.

(** C8 — no leak on timeout.  When the wait of a probe ends with its future
    not ready, [ping_once_engine] returns the Timeout outcome and the table
    then holds no entry for the key of the probe. *)
Theorem timeout_leaves_no_entry w t_recv st :
  future_ready (w_fut w) (heap st) = false ->
  fst (ping_finish w t_recv st) = Returned (with_error empty_result "Timeout") /\
  g_waiters (snd (ping_finish w t_recv st)) !! w_key w = None.
Proof.
  intros Hnr. unfold ping_finish. rewrite Hnr. cbn [fst snd].
  split; [reflexivity|].
  destruct (drop_local_frame (w_owns_promise w) (w_fut w) (erase (w_key w) st))
    as (_ & _ & _ & _ & ->).
  apply erase_lookup.
Qed.

Lemma timeout_leaves_no_entry_witness :
  future_ready (w_fut sample_waiter) (heap (snd (sample_probe Linux))) = false /\
  g_waiters (snd (ping_finish sample_waiter 1005 (snd (sample_probe Linux))))
    !! mkKey 4660 1 = None.
Proof.
  split; [vm_compute; reflexivity|].
  apply (timeout_leaves_no_entry sample_waiter 1005 (snd (sample_probe Linux))).
  vm_compute; reflexivity.
Defined.

(* --------------------------------------------------------------------- *)
(** ** Shutdown *)
(* --------------------------------------------------------------------- *)

Lemma future_ready_get f h s v :
  h !! f = Some s -> status s = Ready v ->
  future_ready f h = true /\ future_get f h = Returned v.
Proof.
  intros Hf Hs. unfold future_ready, future_get. rewrite Hf, Hs. done.
Qed.

Lemma ping_finish_ready w t_recv st s v :
  heap st !! w_fut w = Some s -> status s = Ready v ->
  fst (ping_finish w t_recv st) = Returned (with_rtt v (t_recv - w_t_send w)).
Proof.
  intros Hf Hs. destruct (future_ready_get _ _ _ _ Hf Hs) as [Hr Hg].
  unfold ping_finish. rewrite Hr, Hg. reflexivity.
Qed.

Lemma ping_finish_broken w t_recv st s :
  heap st !! w_fut w = Some s -> status s = Broken ->
  fst (ping_finish w t_recv st) = Raised broken_promise.
Proof.
  intros Hf Hs. unfold ping_finish, future_ready, future_get.
  rewrite Hf, Hs. reflexivity.
Qed.

(** After [shutdown_engine] no promise of the table is pending. *)
Lemma shutdown_none_pending hst st k p s :
  g_waiters st !! k = Some p ->
  heap (shutdown_engine hst st) !! p = Some s ->
  status s <> Pending.
Proof.
  intros Hk. rewrite shutdown_heap_lookup.
  rewrite decide_True by (eapply table_range; exact Hk).
  destruct (heap st !! p) as [s0|]; [|discriminate].
  cbn. intros [= <-]. unfold abandon.
  destruct (status (drained (pf hst) s0)) eqn:E; rewrite ?E; cbn; congruence.
Qed.

(** On Linux the drain hands the default result to every pending waiter. *)
Lemma linux_shutdown_releases hst st w s t_recv :
  pf hst = Linux ->
  g_waiters st !! w_key w = Some (w_fut w) ->
  heap st !! w_fut w = Some s ->
  status s = Pending ->
  fst (ping_finish w t_recv (shutdown_engine hst st))
    = Returned (with_rtt empty_result (t_recv - w_t_send w)).
Proof.
  intros Hpf Hk Hf Hs.
  apply (ping_finish_ready _ _ _
           {| retrieved := retrieved s; status := Ready empty_result |});
    [|reflexivity].
  rewrite shutdown_heap_lookup.
  rewrite decide_True by (eapply table_range; exact Hk).
  rewrite Hf, Hpf. cbn. unfold settle. rewrite Hs. reflexivity.
Qed.

(** On Windows the drain asks each promise for its future a second time:
    [get_future] throws, [set_value] is skipped, and [clear()] breaks the
    promise.  The waiting probe rethrows from [fut.get()]. *)
Lemma windows_shutdown_breaks hst st w s t_recv :
  pf hst = Windows ->
  g_waiters st !! w_key w = Some (w_fut w) ->
  heap st !! w_fut w = Some s ->
  retrieved s = true ->
  status s = Pending ->
  fst (ping_finish w t_recv (shutdown_engine hst st)) = Raised broken_promise.
Proof.
  intros Hpf Hk Hf Hr Hs.
  destruct s as [r stt]. cbn in Hr, Hs. subst r stt.
  apply (ping_finish_broken _ _ _ {| retrieved := true; status := Broken |});
    [|reflexivity].
  rewrite shutdown_heap_lookup.
  rewrite decide_True by (eapply table_range; exact Hk).
  rewrite Hf, Hpf. reflexivity.
Qed.

(** C1, as the specification states it, fails: the outcome a probe gets
    from the drain of [shutdown_engine] carries no error string. *)
Lemma shutdown_outcome_has_no_message :
  exists r,
    fst (ping_finish sample_waiter 42
           (shutdown_engine (sample_host Linux) (snd (sample_probe Linux))))
      = Returned r /\
    success r = false /\
    error_msg r <> "Engine shut down".
Proof.
  eexists. split; [vm_compute; reflexivity|]. split; [reflexivity|discriminate].
Qed.

(** C1, amended.  [shutdown_engine] empties the table, stops the engine and
    leaves no promise of the table pending; on the Linux engine every probe
    that was still waiting then returns the default-constructed result:
    [success = false], [ttl = -1] and an empty error string, with [rtt_ms]
    set by the probe itself. *)
Theorem shutdown_releases_every_waiter hst st :
  g_waiters (shutdown_engine hst st) = ∅ /\
  engine_available (shutdown_engine hst st) = false /\
  (forall k p s,
      g_waiters st !! k = Some p ->
      heap (shutdown_engine hst st) !! p = Some s ->
      status s <> Pending) /\
  (pf hst = Linux ->
   forall w s t_recv,
     g_waiters st !! w_key w = Some (w_fut w) ->
     heap st !! w_fut w = Some s ->
     status s = Pending ->
     fst (ping_finish w t_recv (shutdown_engine hst st))
       = Returned {| success := false; rtt_ms := t_recv - w_t_send w; ttl := -1;
                     if_name := EmptyString; error_msg := EmptyString |}).
Proof.
  split; [reflexivity|]. split; [reflexivity|]. split.
  - intros k p s. apply shutdown_none_pending.
  - intros Hpf w s t_recv Hk Hf Hs.
    by rewrite (linux_shutdown_releases hst st w s t_recv).
Qed.

Lemma shutdown_releases_every_waiter_witness :
  fst (ping_finish sample_waiter 42
         (shutdown_engine (sample_host Linux) (snd (sample_probe Linux))))
    = Returned {| success := false; rtt_ms := 37; ttl := -1;
                  if_name := EmptyString; error_msg := EmptyString |}.
Proof.
  destruct (shutdown_releases_every_waiter (sample_host Linux)
              (snd (sample_probe Linux))) as (_ & _ & _ & H).
  apply (H eq_refl sample_waiter {| retrieved := true; status := Pending |} 42);
    vm_compute; reflexivity.
Defined.

(* --------------------------------------------------------------------- *)
(** ** Failed probes *)
(* --------------------------------------------------------------------- *)







(* --------------------------------------------------------------------- *)
(** ** Duplicate keys *)
(* --------------------------------------------------------------------- *)

Lemma emplace_present hst k p st q :
  g_waiters st !! k = Some q ->
  g_waiters (snd (emplace hst k p st)) = g_waiters st.
Proof.
  intros H. unfold emplace. rewrite H.
  destruct (emplace_builds_first hst); reflexivity.
Qed.

Lemma emplace_absent hst k p st :
  g_waiters st !! k = None ->
  emplace hst k p st = (false, set_waiters (<[k := p]> (g_waiters st)) (heap st) st).
Proof. intros H. unfold emplace. by rewrite H. Qed.

Lemma fresh_not_in_table st k :
  table_wf st -> g_waiters st !! k <> Some (fresh (dom (heap st))).
Proof.
  intros Hwf Hk. apply Hwf in Hk. apply elem_of_dom in Hk.
  by apply is_fresh in Hk.
Qed.

(** C3, as the specification states it, fails: with the key of the new
    probe already in the table, [ping_once_engine] reports no error and
    goes on to send and to wait. *)
Lemma duplicate_key_probe_proceeds :
  g_waiters (sample_collision Linux) !! mkKey 4660 1 = Some 0%nat /\
  exists w packet t,
    ping_begin (sample_host Linux) "10.0.0.7" 1000 0 (-1) sample_io
      (sample_collision Linux)
    = (Awaiting w,
       log_event (Sendto 117440522 packet t) (set_seq 2 (set_waiters
         (g_waiters (sample_collision Linux))
         (heap_with_waiter (heap (sample_collision Linux)))
         (sample_collision Linux)))) /\
    w_key w = mkKey 4660 1.
Proof.
  split; [vm_compute; reflexivity|].
  eexists _, _, _. split; [vm_compute; reflexivity|reflexivity].
Qed.

(** C3, amended.  When the key a probe draws is already in the table,
    [emplace] inserts nothing: the table is left as it is (the existing
    entry is not overwritten and the new promise is not in the table), no
    error is reported, and the probe sends its request and waits. *)
Theorem duplicate_key_is_not_detected
    hst ip timeout_ms payload_size ttl_opt io st dst s q :
  inet_pton hst ip = Some dst ->
  is_local_ipv4_addr hst dst = false ->
  g_sock st = Some s ->
  0 <= payload_size ->
  sendto_ok io = true ->
  table_wf st ->
  g_waiters st !! mkKey (probe_id hst) (g_seq st) = Some q ->
  let res := ping_begin hst ip timeout_ms payload_size ttl_opt io st in
  g_waiters (snd res) = g_waiters st /\
  (exists w,
      fst res = Awaiting w /\
      w_key w = mkKey (probe_id hst) (g_seq st) /\
      forall k, g_waiters (snd res) !! k <> Some (w_fut w)) /\
  (exists packet t, net_log (snd res) = Sendto dst packet t :: net_log st).
Proof.
  intros Hip Hloc Hsock Hsize Hsend Hwf Hdup. cbv zeta.
  destruct (ping_begin_engine_log hst ip timeout_ms payload_size ttl_opt io st
              dst s Hip Hloc Hsock Hsize) as [Hlog _].
  rewrite (ping_begin_engine _ _ _ _ _ _ _ _ _ Hip Hloc Hsock Hsize) in *.
  cbv zeta in *. rewrite Hsend in *. cbn [fst snd] in *.
  pose proof (emplace_present hst (mkKey (probe_id hst) (g_seq st))
                (fresh (dom (heap st)))
                (set_waiters (g_waiters st) (heap_with_waiter (heap st))
                   (set_seq (wrap16 (g_seq st + 1)) st)) q Hdup) as Htab.
  cbn [g_waiters set_waiters set_seq] in Htab.
  split; [exact Htab|]. split.
  - eexists. split; [reflexivity|]. split; [reflexivity|].
    intros k. cbn [w_fut g_waiters log_event set_sock]. rewrite Htab.
    by apply fresh_not_in_table.
  - eauto.
Qed.

Lemma duplicate_key_is_not_detected_witness :
  g_waiters (snd (ping_begin (sample_host Linux) "10.0.0.7" 1000 0 (-1) sample_io
                    (sample_collision Linux)))
    = g_waiters (sample_collision Linux).
Proof.
  refine (proj1 (duplicate_key_is_not_detected (sample_host Linux) "10.0.0.7" 1000 0
              (-1) sample_io (sample_collision Linux) 117440522
              {| ip_ttl := Some 64 |} 0%nat eq_refl eq_refl _ _ eq_refl _ _)).
  - vm_compute; reflexivity.
  - lia.
  - intros k p Hk. 
    assert (p = 0%nat) as ->.
    { change (g_waiters (sample_collision Linux))
        with ({[mkKey 4660 1 := 0%nat]} : gmap Key nat) in Hk.
      apply lookup_singleton_Some in Hk. by destruct Hk. }
    vm_compute. eauto.
  - vm_compute; reflexivity.
Defined.

(* --------------------------------------------------------------------- *)
(** ** Life cycle *)
(* --------------------------------------------------------------------- *)

Lemma ping_begin_running hst ip timeout_ms payload_size ttl_opt io st :
  g_running (snd (ping_begin hst ip timeout_ms payload_size ttl_opt io st))
    = g_running st.
Proof.
  unfold ping_begin, local_ping, fetch_add_seq.
  repeat case_match; simplify_eq; cbn [snd]; try reflexivity.
  all: match goal with
       | H : emplace ?h ?k ?p ?x = (_, ?e) |- _ =>
           destruct (emplace_frame h k p x) as (_ & Hr & _ & _);
           rewrite H in Hr; cbn [snd] in Hr
       end.
  all: try (cbn [g_running log_event set_sock]; rewrite Hr; reflexivity).
  all: match goal with |- context [drop_local ?o ?p ?x] =>
         destruct (drop_local_frame o p x) as (_ & -> & _) end.
  all: match goal with |- context [erase ?k ?x] =>
         destruct (erase_frame k x) as (_ & -> & _) end.
  all: cbn [g_running log_event set_sock]; rewrite Hr; reflexivity.
Qed.

Lemma ping_begin_no_socket hst ip timeout_ms payload_size ttl_opt io st :
  g_sock st = None ->
  g_sock (snd (ping_begin hst ip timeout_ms payload_size ttl_opt io st)) = None.
Proof.
  intros Hs. unfold ping_begin, local_ping, fetch_add_seq. rewrite Hs.
  repeat case_match; simplify_eq; cbn [snd]; done.
Qed.

Lemma ping_finish_frame w t_recv st :
  g_sock (snd (ping_finish w t_recv st)) = g_sock st /\
  g_running (snd (ping_finish w t_recv st)) = g_running st /\
  g_seq (snd (ping_finish w t_recv st)) = g_seq st /\
  net_log (snd (ping_finish w t_recv st)) = net_log st.
Proof.
  unfold ping_finish.
  repeat case_match; cbn [snd];
    match goal with |- context [drop_local ?o ?p ?x] =>
      destruct (drop_local_frame o p x) as (-> & -> & -> & -> & _) end;
    try done.
  apply erase_frame.
Qed.

Lemma resolve_waiter_frame k probe st :
  g_sock (snd (resolve_waiter k probe st)) = g_sock st /\
  g_running (snd (resolve_waiter k probe st)) = g_running st /\
  g_seq (snd (resolve_waiter k probe st)) = g_seq st /\
  net_log (snd (resolve_waiter k probe st)) = net_log st.
Proof. unfold resolve_waiter. case_match; done. Qed.

(** Between calls, an engine that is not running has no socket. *)
Lemma stopped_engine_has_no_socket hst st :
  reachable hst st -> g_running st = false -> g_sock st = None.
Proof.
  induction 1 as [|io st _ IH|st _ IH|ip tm n tt io st _ IH|w t st _ IH|k pr st _ IH].
  - reflexivity.
  - unfold init_engine.
    destruct (g_running st) eqn:Er; [cbn [snd]; congruence|].
    specialize (IH eq_refl).
    repeat case_match; cbn; try done; congruence.
  - reflexivity.
  - rewrite ping_begin_running. intros Hr.
    apply ping_begin_no_socket. by apply IH.
  - destruct (ping_finish_frame w t st) as (-> & -> & _). exact IH.
  - destruct (resolve_waiter_frame k pr st) as (-> & -> & _). exact IH.
Qed.

(** C9, as the specification states it, fails: for a destination that is
    one of the host's own addresses the probe takes the fast path before it
    looks at the engine at all; with the engine never started it sends an
    echo and can succeed. *)
Lemma local_probe_ignores_engine_state :
  engine_available engine_start = false /\
  ping_begin (sample_host Windows) "127.0.0.1" 1000 0 (-1) sample_io engine_start
    = (Done {| success := true; rtt_ms := 0; ttl := 128;
               if_name := EmptyString; error_msg := EmptyString |},
       log_event (LocalEcho 16777343) engine_start).
Proof. split; reflexivity. Qed.

(** C9, amended.  While [engine_available()] is false, a probe to a valid
    destination that is not one of the host's own addresses returns
    [success = false] with the error "Engine socket not available", and a
    probe to an invalid destination returns "Invalid IP"; either way nothing
    is sent and the engine is left exactly as it was. *)
Theorem probe_while_not_running hst ip timeout_ms payload_size ttl_opt io st :
  reachable hst st ->
  engine_available st = false ->
  (inet_pton hst ip = None ->
   ping_begin hst ip timeout_ms payload_size ttl_opt io st
     = (Done (with_error empty_result "Invalid IP"), st)) /\
  (forall dst,
      inet_pton hst ip = Some dst ->
      is_local_ipv4_addr hst dst = false ->
      ping_begin hst ip timeout_ms payload_size ttl_opt io st
        = (Done {| success := false; rtt_ms := -1; ttl := -1;
                   if_name := EmptyString;
                   error_msg := "Engine socket not available" |}, st)).
Proof.
  intros Hreach Hrun.
  pose proof (stopped_engine_has_no_socket hst st Hreach Hrun) as Hsock.
  unfold ping_begin. split.
  - intros ->. reflexivity.
  - intros dst -> ->. rewrite Hsock. reflexivity.
Qed.

Lemma probe_while_not_running_witness :
  ping_begin (sample_host Linux) "10.0.0.7" 1000 0 (-1) sample_io
    (shutdown_engine (sample_host Linux) (sample_running Linux))
  = (Done {| success := false; rtt_ms := -1; ttl := -1;
             if_name := EmptyString;
             error_msg := "Engine socket not available" |},
     shutdown_engine (sample_host Linux) (sample_running Linux)).
Proof.
  refine (proj2 (probe_while_not_running (sample_host Linux) "10.0.0.7" 1000 0 (-1)
                   sample_io
                   (shutdown_engine (sample_host Linux) (sample_running Linux))
                   _ eq_refl) 117440522 eq_refl eq_refl).
  apply reach_shutdown. apply (reach_init _ sample_init). apply reach_start.
Defined.

(* --------------------------------------------------------------------- *)
(** ** The TTL option of the shared socket *)
(* --------------------------------------------------------------------- *)



(* ===================================================================== *)
(** * Part III: further properties of the code *)
(* ===================================================================== *)

(** ** [checksum16] as the one's-complement sum *)

Lemma raw_sum_bound data :
  2 * raw_sum data <= 65535 * (Z.of_nat (length data) + 1).
Proof.
  induction data as [|b|b0 b1 l IH] using list_pair_ind.
  - simpl. lia.
  - simpl. pose proof (u8_range b). lia.
  - change (raw_sum (b0 :: b1 :: l)) with (load16 b0 b1 + raw_sum l).
    pose proof (load16_range b0 b1).
    change (length (b0 :: b1 :: l)) with (S (S (length l))). lia.
Qed.

(** X1 — the accumulator is exact.  For a buffer of at most 131073 bytes
    (every IP datagram is far shorter) the 32-bit accumulator never wraps:
    it holds the plain sum of the 16-bit words, and that sum plus the
    returned checksum is a multiple of 0xFFFF. *)
Theorem checksum16_is_ones_complement (data : list byte) :
  Z.of_nat (length data) <= 131073 ->
  sum_words 0 data = raw_sum data /\
  (raw_sum data + checksum16 data) mod 65535 = 0.
Proof.
  intros Hlen.
  pose proof (raw_sum_bound data) as Hb. pose proof (raw_sum_nonneg data) as Hn.
  assert (sum_words 0 data = raw_sum data) as E.
  { rewrite sum_words_raw by lia. unfold wrap32. apply Z.mod_small. lia. }
  split; [exact E|].
  rewrite checksum16_complement. unfold ones_sum16. rewrite E.
  replace (raw_sum data + (65535 - fold_carries (raw_sum data)))
    with ((raw_sum data - fold_carries (raw_sum data)) + 1 * 65535) by lia.
  rewrite Z.mod_add by lia. apply fold_carries_congruent. lia.
Qed.

Lemma checksum16_is_ones_complement_witness :
  Z.of_nat (length sample_buffer) <= 131073 /\
  (raw_sum sample_buffer + checksum16 sample_buffer) mod 65535 = 0.
Proof.
  split; [vm_compute; discriminate|].
  apply (checksum16_is_ones_complement sample_buffer). vm_compute; discriminate.
Defined.

(** X2 — the carry loop.  For every value of the 32-bit accumulator the loop
    [while (sum >> 16) ...] is over after at most two rounds: running it
    longer changes nothing, and what it leaves fits in 16 bits. *)
Theorem fold_loop_terminates s fuel :
  0 <= s < 4294967296 ->
  (2 <= fuel)%nat ->
  fold_loop fuel s = fold_loop 2 s /\
  Z.shiftr (fold_loop fuel s) 16 = 0 /\
  0 <= fold_loop fuel s < 65536.
Proof.
  intros Hs Hfuel.
  destruct (fold_carries_exits s fuel Hs Hfuel) as [E1 E2].
  destruct (fold_carries_exits s 2 Hs ltac:(lia)) as [E3 _].
  rewrite E1, E3. split; [reflexivity|]. split; [exact E2|].
  by apply fold_carries_range.
Qed.

Lemma fold_loop_terminates_witness :
  fold_loop 7 4294967295 = fold_loop 2 4294967295 /\
  Z.shiftr (fold_loop 7 4294967295) 16 = 0 /\
  0 <= fold_loop 7 4294967295 < 65536.
Proof. apply (fold_loop_terminates 4294967295 7); lia. Defined.

(** ** The two packet builders *)

(** X3 — the two engines put the same bytes on the wire.  The Windows
    builder (header struct copied in front of a payload vector) and the
    Linux builder (fields written into a zeroed vector) produce the same
    packet, of [16 + payload_size] bytes, and [checksum16] over the finished
    packet is 0, as a receiver checks it. *)
Theorem echo_request_platforms_agree id seq tk n :
  echo_request Windows id seq tk n = echo_request Linux id seq tk n /\
  length (echo_request Linux id seq tk n) = (16 + n)%nat /\
  checksum16 (echo_request Linux id seq tk n) = 0.
Proof.
  split; [by rewrite !echo_request_closed|].
  split; [apply echo_request_length|].
  rewrite checksum16_complement, echo_request_sum. reflexivity.
Qed.

Lemma htons_ntohs x : 0 <= x < 65536 -> ntohs (htons x) = x.
Proof.
  intros Hx. unfold ntohs, htons.
  pose proof (Z.div_mod x 256 ltac:(lia)) as Hdm.
  pose proof (Z.mod_pos_bound x 256 ltac:(lia)) as Hm.
  assert (0 <= x / 256 < 256) as Hd
    by (split; [apply Z.div_pos; lia | apply Z.div_lt_upper_bound; lia]).
  rewrite (Z.mod_small (x / 256)) by lia.
  assert ((x mod 256 * 256 + x / 256) mod 256 = x / 256) as ->
    by (symmetry; apply (Z.mod_unique _ 256 (x mod 256)); lia).
  assert ((x mod 256 * 256 + x / 256) / 256 = x mod 256) as ->
    by (symmetry; apply (Z.div_unique _ 256 _ (x / 256)); lia).
  rewrite Z.mod_mod by lia. lia.
Qed.

Lemma load16_wire x :
  0 <= x < 65536 -> load16 (byte_of_Z (x / 256)) (byte_of_Z x) = htons x.
Proof.
  intros Hx. unfold load16, htons. rewrite !u8_byte_of_Z. lia.
Qed.

(** The header fields of the reply that echoes a request of the engine. *)
Lemma as_reply_fields p id seq tk n :
  0 <= id < 65536 ->
  0 <= seq < 65536 ->
  u8 (byte_at 0 (as_reply (echo_request p id seq tk n))) = 0 /\
  ntohs (load16_at 4 (as_reply (echo_request p id seq tk n))) = id /\
  ntohs (load16_at 6 (as_reply (echo_request p id seq tk n))) = seq /\
  length (as_reply (echo_request p id seq tk n)) = (16 + n)%nat.
Proof.
  intros Hid Hseq. rewrite echo_request_bytes.
  unfold as_reply, load16_at, byte_at. cbn [drop app lookup list_lookup default].
  unfold Datatypes.id.
  rewrite !load16_wire, !htons_ntohs by done.
  repeat split; try reflexivity.
  cbn [length]. rewrite length_app, length_replicate. reflexivity.
Qed.

(** X4 — key round trip.  What the listener reads as identifier and
    sequence number at offsets 4 and 6 of an Echo Request built by the
    engine, or of the reply that echoes it, are the identifier and sequence
    number the request was built with; the request has type 8, the reply
    type 0. *)
Theorem echo_request_key_round_trip p id seq tk n :
  0 <= id < 65536 ->
  0 <= seq < 65536 ->
  let request := echo_request p id seq tk n in
  u8 (byte_at 0 request) = 8 /\
  ntohs (load16_at 4 request) = id /\
  ntohs (load16_at 6 request) = seq /\
  u8 (byte_at 0 (as_reply request)) = 0 /\
  ntohs (load16_at 4 (as_reply request)) = id /\
  ntohs (load16_at 6 (as_reply request)) = seq.
Proof.
  intros Hid Hseq. cbv zeta.
  destruct (as_reply_fields p id seq tk n Hid Hseq) as (Ht & Hi & Hs & _).
  split; [|split; [|split; [|split; [exact Ht|split; [exact Hi|exact Hs]]]]].
  - rewrite echo_request_bytes. reflexivity.
  - rewrite <- Hi at 2. rewrite echo_request_bytes. reflexivity.
  - rewrite <- Hs at 2. rewrite echo_request_bytes. reflexivity.
Qed.

Lemma echo_request_key_round_trip_witness :
  ntohs (load16_at 4 (as_reply (echo_request Windows 4660 513 1000 3))) = 4660 /\
  ntohs (load16_at 6 (as_reply (echo_request Windows 4660 513 1000 3))) = 513.
Proof.
  destruct (echo_request_key_round_trip Windows 4660 513 1000 3
              ltac:(lia) ltac:(lia)) as (_ & _ & _ & _ & H1 & H2).
  split; [exact H1 | exact H2].
Defined.

(** ** Registration and its undoing *)

(** The engine path with a fresh key and a send that succeeds. *)
Lemma ping_begin_registers hst ip timeout_ms payload_size ttl_opt io st dst s :
  inet_pton hst ip = Some dst ->
  is_local_ipv4_addr hst dst = false ->
  g_sock st = Some s ->
  0 <= payload_size ->
  g_waiters st !! mkKey (probe_id hst) (g_seq st) = None ->
  sendto_ok io = true ->
  let k := mkKey (probe_id hst) (g_seq st) in
  let p := fresh (dom (heap st)) in
  let res := ping_begin hst ip timeout_ms payload_size ttl_opt io st in
  fst res = Awaiting {| w_key := k; w_fut := p; w_t_send := t_send io;
                        w_owns_promise := false |} /\
  g_waiters (snd res) = <[k := p]> (g_waiters st) /\
  heap (snd res) = heap_with_waiter (heap st) /\
  g_running (snd res) = g_running st /\
  g_cap (snd res) = g_cap st.
Proof.
  intros Hip Hloc Hsock Hsize Hfree Hsend. cbv zeta.
  rewrite (ping_begin_engine _ _ _ _ _ _ _ _ _ Hip Hloc Hsock Hsize).
  cbv zeta. rewrite Hsend.
  rewrite emplace_absent by exact Hfree.
  repeat split; reflexivity.
Qed.

(** X5 — a failed send leaves no entry.  When [sendto] fails for a probe
    that had registered a fresh key, the probe returns the send error at
    once, the request was handed to [sendto] exactly once, and the table is
    what it was before the probe. *)
Theorem send_failure_leaves_no_entry hst ip timeout_ms payload_size ttl_opt io st dst s :
  inet_pton hst ip = Some dst ->
  is_local_ipv4_addr hst dst = false ->
  g_sock st = Some s ->
  0 <= payload_size ->
  g_waiters st !! mkKey (probe_id hst) (g_seq st) = None ->
  sendto_ok io = false ->
  let res := ping_begin hst ip timeout_ms payload_size ttl_opt io st in
  fst res = Done (with_error empty_result (sendto_failed (pf hst))) /\
  g_waiters (snd res) = g_waiters st /\
  exists packet t, net_log (snd res) = Sendto dst packet t :: net_log st.
Proof.
  intros Hip Hloc Hsock Hsize Hfree Hsend. cbv zeta.
  destruct (ping_begin_engine_log hst ip timeout_ms payload_size ttl_opt io st
              dst s Hip Hloc Hsock Hsize) as [Hlog _].
  split; [|split; [|eauto]].
  - rewrite (ping_begin_engine _ _ _ _ _ _ _ _ _ Hip Hloc Hsock Hsize).
    cbv zeta. by rewrite Hsend.
  - rewrite (ping_begin_engine _ _ _ _ _ _ _ _ _ Hip Hloc Hsock Hsize).
    cbv zeta. rewrite Hsend. rewrite emplace_absent by exact Hfree.
    cbn [fst snd drop_local]. unfold erase.
    cbn [g_waiters log_event set_sock set_waiters set_seq].
    rewrite lookup_insert_eq. cbn [g_waiters set_waiters].
    by apply delete_insert_id.
Qed.

Lemma send_failure_leaves_no_entry_witness :
  g_waiters (snd (ping_begin (sample_host Linux) "10.0.0.7" 1000 0 (-1)
                    sample_io_send_fails (sample_running Linux)))
  = g_waiters (sample_running Linux).
Proof.
  refine (proj1 (proj2 (send_failure_leaves_no_entry (sample_host Linux) "10.0.0.7"
            1000 0 (-1) sample_io_send_fails (sample_running Linux) 117440522
            {| ip_ttl := Some 64 |} eq_refl eq_refl eq_refl _ _ eq_refl))).
  - lia.
  - vm_compute; reflexivity.
Defined.

(** X6 — shutdown on Windows throws into the waiting probe.  On the Windows
    engine a probe that registered its key and is still waiting when
    [shutdown_engine] runs does not get a value: the drain's second
    [get_future] throws, [set_value] is skipped, [clear()] breaks the
    promise, and [ping_once_engine] rethrows [broken_promise]. *)
Theorem windows_shutdown_throws_into_probe
    hst ip timeout_ms payload_size ttl_opt io st dst s t_recv :
  pf hst = Windows ->
  inet_pton hst ip = Some dst ->
  is_local_ipv4_addr hst dst = false ->
  g_sock st = Some s ->
  0 <= payload_size ->
  g_waiters st !! mkKey (probe_id hst) (g_seq st) = None ->
  sendto_ok io = true ->
  exists w,
    fst (ping_begin hst ip timeout_ms payload_size ttl_opt io st) = Awaiting w /\
    fst (ping_finish w t_recv
           (shutdown_engine hst
              (snd (ping_begin hst ip timeout_ms payload_size ttl_opt io st))))
      = Raised broken_promise.
Proof.
  intros Hpf Hip Hloc Hsock Hsize Hfree Hsend.
  destruct (ping_begin_registers hst ip timeout_ms payload_size ttl_opt io st
              dst s Hip Hloc Hsock Hsize Hfree Hsend) as (Hw & Ht & Hh & _).
  eexists. split; [exact Hw|].
  apply (windows_shutdown_breaks _ _ _ {| retrieved := true; status := Pending |});
    try done.
  - rewrite Ht. cbn [w_key w_fut]. apply lookup_insert_eq.
  - rewrite Hh. cbn [w_fut]. apply lookup_insert_eq.
Qed.

Lemma windows_shutdown_throws_into_probe_witness :
  fst (ping_finish sample_waiter 42
         (shutdown_engine (sample_host Windows) (snd (sample_probe Windows))))
    = Raised broken_promise.
Proof.
  destruct (windows_shutdown_throws_into_probe (sample_host Windows) "10.0.0.7"
              1000 0 (-1) sample_io (sample_running Windows) 117440522
              {| ip_ttl := None |} 42 eq_refl eq_refl eq_refl eq_refl
              ltac:(lia) ltac:(vm_compute; reflexivity) eq_refl)
    as (w & Hw & H).
  change (fst (sample_probe Windows) = Awaiting w) in Hw.
  rewrite sample_probe_waits in Hw. injection Hw as <-. exact H.
Defined.

(** ** What a duplicate key does *)

Lemma heap_with_waiter_old h q s :
  h !! q = Some s -> heap_with_waiter h !! q = Some s.
Proof.
  intros Hq. unfold heap_with_waiter. rewrite lookup_insert_ne; [done|].
  intros <-. apply (is_fresh (dom h)). apply elem_of_dom. eauto.
Qed.

Lemma heap_with_waiter_new h :
  heap_with_waiter h !! fresh (dom h)
    = Some {| retrieved := true; status := Pending |}.
Proof. apply lookup_insert_eq. Qed.

(** X7 — a probe with a duplicate key takes the earlier probe down.  Let the
    key a probe draws be that of an earlier probe that is still waiting, on
    a host whose [emplace] leaves the promise alone when the key is taken.
    The new probe can only time out; its clean-up erases the entry of the
    earlier probe, and the earlier probe then gets [broken_promise] thrown
    from [fut.get()] instead of a result. *)
Theorem duplicate_key_breaks_earlier_probe
    hst ip timeout_ms payload_size ttl_opt io st dst s w1 s1 t2 t1 :
  emplace_builds_first hst = false ->
  inet_pton hst ip = Some dst ->
  is_local_ipv4_addr hst dst = false ->
  g_sock st = Some s ->
  0 <= payload_size ->
  sendto_ok io = true ->
  w_key w1 = mkKey (probe_id hst) (g_seq st) ->
  g_waiters st !! w_key w1 = Some (w_fut w1) ->
  heap st !! w_fut w1 = Some s1 ->
  status s1 = Pending ->
  exists w2 st1,
    ping_begin hst ip timeout_ms payload_size ttl_opt io st = (Awaiting w2, st1) /\
    future_ready (w_fut w2) (heap st1) = false /\
    fst (ping_finish w2 t2 st1) = Returned (with_error empty_result "Timeout") /\
    fst (ping_finish w1 t1 (snd (ping_finish w2 t2 st1))) = Raised broken_promise.
Proof.
  intros Hflag Hip Hloc Hsock Hsize Hsend Hkey Hk1 Hh1 Hs1.
  rewrite Hkey in Hk1.
  rewrite (ping_begin_engine _ _ _ _ _ _ _ _ _ Hip Hloc Hsock Hsize).
  cbv zeta. rewrite Hsend. unfold emplace.
  cbn [g_waiters set_waiters set_seq]. rewrite Hk1, Hflag. cbn [fst snd].
  eexists _, _. split; [reflexivity|].
  assert (forall st', 
            heap st' = heap_with_waiter (heap st) ->
            future_ready (fresh (dom (heap st))) (heap st') = false) as Hnr.
  { intros st' ->. unfold future_ready. by rewrite heap_with_waiter_new. }
  cbn [w_fut w_key w_owns_promise].
  split; [by apply Hnr|]. split.
  - unfold ping_finish. cbn [w_fut]. rewrite Hnr by reflexivity. reflexivity.
  - unfold ping_finish at 2. cbn [w_fut w_key w_owns_promise].
    rewrite Hnr by reflexivity. cbn [snd].
    apply (ping_finish_broken _ _ _ {| retrieved := retrieved s1; status := Broken |});
      [|reflexivity].
    unfold drop_local, erase.
    cbn [g_waiters heap log_event set_sock set_waiters set_seq].
    rewrite Hk1. cbn [g_waiters heap set_waiters].
    assert (w_fut w1 <> fresh (dom (heap st))) as Hne.
    { intros E. apply (is_fresh (dom (heap st))). rewrite <- E.
      apply elem_of_dom. eauto. }
    rewrite !promise_destroy_lookup.
    rewrite decide_False by exact Hne. rewrite decide_True by reflexivity.
    rewrite (heap_with_waiter_old _ _ _ Hh1). cbn. unfold abandon.
    rewrite Hs1. reflexivity.
Qed.

Lemma duplicate_key_breaks_earlier_probe_witness :
  exists w2 st1,
    ping_begin (sample_host Windows) "10.0.0.7" 1000 0 (-1) sample_io
      (sample_collision Windows) = (Awaiting w2, st1) /\
    fst (ping_finish sample_waiter 2000 (snd (ping_finish w2 1005 st1)))
      = Raised broken_promise.
Proof.
  destruct (duplicate_key_breaks_earlier_probe (sample_host Windows) "10.0.0.7"
              1000 0 (-1) sample_io (sample_collision Windows) 117440522
              {| ip_ttl := None |} sample_waiter
              {| retrieved := true; status := Pending |} 1005 2000
              eq_refl eq_refl eq_refl eq_refl ltac:(lia) eq_refl eq_refl
              ltac:(vm_compute; reflexivity) ltac:(vm_compute; reflexivity)
              eq_refl)
    as (w2 & st1 & Hb & _ & _ & H).
  exists w2, st1. split; [exact Hb | exact H].
Defined.

(** ** [init_engine] *)

(** X8 — what [init_engine] returns is the status.  Whenever [init_engine]
    returns, its result is what [engine_available()] says afterwards; a
    failed start leaves the table, the shared states and the sequence
    counter alone, and an engine that had no socket still has none. *)
Theorem init_engine_result_is_status hst io st b st' :
  init_engine hst io st = (Returned b, st') ->
  engine_available st' = b /\
  g_waiters st' = g_waiters st /\ heap st' = heap st /\ g_seq st' = g_seq st /\
  (b = false -> g_sock st = None -> g_sock st' = None).
Proof.
  unfold init_engine, engine_available. intros H.
  destruct (g_running st) eqn:Er.
  - injection H as <- <-. rewrite Er. repeat split; congruence.
  - repeat case_match; simplify_eq; cbn;
      rewrite ?Er; repeat split; try done; congruence.
Qed.

Lemma init_engine_result_is_status_witness :
  engine_available
    (snd (init_engine (sample_host Linux) sample_init_no_thread engine_start))
  = false.
Proof.
  refine (proj1 (init_engine_result_is_status (sample_host Linux)
                   sample_init_no_thread engine_start false
                   (snd (init_engine (sample_host Linux) sample_init_no_thread
                           engine_start)) eq_refl)).
Defined.

(** ** The receive loop of the Linux fast path *)

(** The room offered to [recvmsg] is [sizeof(cbuf)] or what an earlier call
    left: the space of one message, or nothing. *)
Lemma recvmsg_control_room controllen c :
  controllen = sizeof_cbuf \/ controllen = CMSG_SPACE_int \/ controllen = 0 ->
  snd (recvmsg_control controllen c) = CMSG_SPACE_int \/
  snd (recvmsg_control controllen c) = 0.
Proof.
  intros [->|[->| ->]]; destruct c; cbn; auto.
Qed.

(** With room for a message the walk finds the one of the datagram, if it
    has one; without room it finds none, and no room is left for the next
    call either. *)
Lemma recvmsg_control_fits controllen c :
  CMSG_SPACE_int <= controllen ->
  recvmsg_control controllen c =
    (c, match c with Some _ => CMSG_SPACE_int | None => 0 end).
Proof.
  unfold recvmsg_control, CMSG_SPACE_int, CMSG_LEN_int. intros H.
  destruct c as [t|]; [|reflexivity].
  assert ((20 <=? controllen) = true) as -> by lia.
  f_equal. lia.
Qed.

Lemma recvmsg_control_no_room c : recvmsg_control 0 c = (None, 0).
Proof. by destruct c. Qed.

Lemma recv_loop_skip controllen id seq tsend probe a rest e :
  is_reply_for id seq a = false ->
  recv_loop controllen id seq tsend probe (a :: rest) e =
    recv_loop (snd (recvmsg_control controllen (a_cmsg_ttl a)))
      id seq tsend probe rest e.
Proof.
  unfold is_reply_for. cbn [recv_loop]. intros H.
  destruct (recvmsg_control controllen (a_cmsg_ttl a)) as [cmsg room].
  cbn [snd].
  destruct (Z.ltb_spec (Z.of_nat (length (a_bytes a))) 8) as [Hl|Hl]; [done|].
  assert ((8 <=? Z.of_nat (length (a_bytes a))) = true) as E by lia.
  rewrite E in H. cbn [andb] in H.
  destruct (u8 (byte_at 0 (a_bytes a)) =? 0); cbn [andb negb] in *; [|done].
  destruct (ntohs (load16_at 4 (a_bytes a)) =? id); cbn [andb negb orb] in *; [|done].
  by rewrite H.
Qed.

Lemma recv_loop_take controllen id seq tsend probe a rest e :
  is_reply_for id seq a = true ->
  recv_loop controllen id seq tsend probe (a :: rest) e =
    {| success := true; rtt_ms := a_time a - tsend;
       ttl := cmsg_ttl (fst (recvmsg_control controllen (a_cmsg_ttl a)));
       if_name := if_name probe; error_msg := error_msg probe |}.
Proof.
  unfold is_reply_for. cbn [recv_loop]. intros H.
  destruct (recvmsg_control controllen (a_cmsg_ttl a)) as [cmsg room].
  cbn [fst].
  apply andb_prop in H as [H H4]. apply andb_prop in H as [H H3].
  apply andb_prop in H as [H1 H2].
  assert ((Z.of_nat (length (a_bytes a)) <? 8) = false) as -> by lia.
  by rewrite H2, H3, H4.
Qed.

(** Once a datagram without control data has been skipped, no later reply
    has its TTL reported. *)
Lemma recv_loop_no_room id seq tsend skipped e :
  forallb (fun a => negb (is_reply_for id seq a)) skipped = true ->
  (forall a later,
      is_reply_for id seq a = true ->
      recv_loop 0 id seq tsend empty_result (skipped ++ a :: later) e =
        {| success := true; rtt_ms := a_time a - tsend; ttl := -1;
           if_name := EmptyString; error_msg := EmptyString |}) /\
  recv_loop 0 id seq tsend empty_result skipped e =
    with_error empty_result (if e then "Timeout" else "recvmsg() failed").
Proof.
  induction skipped as [|a0 skipped IH]; intros Hskip.
  - split; [|reflexivity]. intros a later Ha. cbn [app].
    by rewrite recv_loop_take, recvmsg_control_no_room.
  - cbn [forallb] in Hskip. apply andb_prop in Hskip as [H0 Hskip].
    apply negb_true_iff in H0. destruct (IH Hskip) as [IH1 IH2].
    split.
    + intros a later Ha. cbn [app].
      rewrite recv_loop_skip, recvmsg_control_no_room by exact H0.
      by apply IH1.
    + rewrite recv_loop_skip, recvmsg_control_no_room by exact H0. exact IH2.
Qed.

Lemma recv_loop_with_room controllen id seq tsend skipped e :
  CMSG_SPACE_int <= controllen ->
  forallb (fun a => negb (is_reply_for id seq a)) skipped = true ->
  (forall a later,
      is_reply_for id seq a = true ->
      recv_loop controllen id seq tsend empty_result (skipped ++ a :: later) e =
        {| success := true; rtt_ms := a_time a - tsend;
           ttl := if forallb has_control skipped
                  then cmsg_ttl (a_cmsg_ttl a) else -1;
           if_name := EmptyString; error_msg := EmptyString |}) /\
  recv_loop controllen id seq tsend empty_result skipped e =
    with_error empty_result (if e then "Timeout" else "recvmsg() failed").
Proof.
  revert controllen.
  induction skipped as [|a0 skipped IH]; intros controllen Hroom Hskip.
  - split; [|reflexivity]. intros a later Ha. cbn [app forallb].
    by rewrite recv_loop_take, recvmsg_control_fits.
  - cbn [forallb] in Hskip. apply andb_prop in Hskip as [H0 Hskip].
    apply negb_true_iff in H0.
    assert (CMSG_SPACE_int <= CMSG_SPACE_int) as Hfits by lia.
    destruct (IH _ Hfits Hskip) as [IH1 IH2].
    destruct (recv_loop_no_room id seq tsend skipped e Hskip) as [N1 N2].
    split.
    + intros a later Ha. cbn [app forallb]. unfold has_control at 1.
      rewrite recv_loop_skip, recvmsg_control_fits by done. cbn [snd].
      destruct (a_cmsg_ttl a0); cbn [andb]; [by apply IH1 | by apply N1].
    + rewrite recv_loop_skip, recvmsg_control_fits by done. cbn [snd].
      destruct (a_cmsg_ttl a0); [exact IH2 | exact N2].
Qed.

(** X9 — the first matching reply wins, but may lose its TTL.  The receive
    loop of the Linux fast path skips every datagram that is too short, is
    not an Echo Reply, or carries another identifier or sequence number.
    It returns success with the arrival time of the first reply that
    matches, whatever follows it.  Because the loop never sets
    [msg.msg_controllen] again, the TTL it reports is that of the reply's
    control message only if every datagram skipped before it carried
    control data; after one that carried none it reports -1.  If no reply
    matches before [recvmsg] fails, the loop returns "Timeout" or
    "recvmsg() failed" according to [errno]. *)
Theorem recv_loop_first_match id seq tsend skipped e :
  forallb (fun a => negb (is_reply_for id seq a)) skipped = true ->
  (forall a later,
      is_reply_for id seq a = true ->
      recv_loop sizeof_cbuf id seq tsend empty_result (skipped ++ a :: later) e =
        {| success := true; rtt_ms := a_time a - tsend;
           ttl := if forallb has_control skipped
                  then cmsg_ttl (a_cmsg_ttl a) else -1;
           if_name := EmptyString; error_msg := EmptyString |}) /\
  recv_loop sizeof_cbuf id seq tsend empty_result skipped e =
    with_error empty_result (if e then "Timeout" else "recvmsg() failed").
Proof.
  intros Hskip.
  apply recv_loop_with_room; [|exact Hskip].
  unfold CMSG_SPACE_int, sizeof_cbuf. lia.
Qed.

Lemma recv_loop_first_match_witness :
  recv_loop sizeof_cbuf 4660 1 5 empty_result
    [{| a_bytes := [x00; x00]; a_cmsg_ttl := None; a_time := 6 |};
     {| a_bytes := as_reply (echo_request Linux 4660 1 1000 0);
        a_cmsg_ttl := Some 63; a_time := 17 |}] true
  = {| success := true; rtt_ms := 12; ttl := -1;
       if_name := EmptyString; error_msg := EmptyString |}.
Proof.
  refine (proj1 (recv_loop_first_match 4660 1 5
            [{| a_bytes := [x00; x00]; a_cmsg_ttl := None; a_time := 6 |}] true _)
            {| a_bytes := as_reply (echo_request Linux 4660 1 1000 0);
               a_cmsg_ttl := Some 63; a_time := 17 |} [] _);
    vm_compute; reflexivity.
Defined.

(** ** The sequence counter *)

Lemma fetch_add_seq_iter n st :
  0 <= g_seq st < 65536 ->
  g_seq (Nat.iter n (fun s => snd (fetch_add_seq s)) st)
    = (g_seq st + Z.of_nat n) mod 65536.
Proof.
  intros Hr. induction n as [|n IH].
  - change (Nat.iter 0 (fun s => snd (fetch_add_seq s)) st) with st.
    change (Z.of_nat 0) with 0. rewrite Z.add_0_r.
    symmetry. apply Z.mod_small. exact Hr.
  - change (Nat.iter (S n) (fun s => snd (fetch_add_seq s)) st)
      with (snd (fetch_add_seq (Nat.iter n (fun s => snd (fetch_add_seq s)) st))).
    unfold fetch_add_seq at 1. cbn [snd g_seq set_seq].
    rewrite IH. unfold wrap16. rewrite Zplus_mod_idemp_l. f_equal. lia.
Qed.

(** X10 — the sequence number comes round.  [g_seq] is a 16-bit counter:
    each [fetch_add] hands out the current value and steps it modulo 65536,
    so the counter always stays a 16-bit value and the 65536th next draw
    hands out the same sequence number, hence with the constant identifier
    the same key, again. *)
Theorem sequence_counter_wraps st n :
  0 <= g_seq st < 65536 ->
  let st' := Nat.iter n (fun s => snd (fetch_add_seq s)) st in
  0 <= g_seq st' < 65536 /\
  fst (fetch_add_seq st') = (g_seq st + Z.of_nat n) mod 65536 /\
  (Z.of_nat n = 65536 -> fst (fetch_add_seq st') = fst (fetch_add_seq st)).
Proof.
  intros Hr. cbv zeta.
  pose proof (fetch_add_seq_iter n st Hr) as E.
  assert (forall x, fst (fetch_add_seq x) = g_seq x) as Hfst by reflexivity.
  rewrite !Hfst, !E.
  split; [apply Z.mod_pos_bound; lia|]. split; [reflexivity|].
  intros ->.
  replace (g_seq st + 65536) with (g_seq st + 1 * 65536) by lia.
  rewrite Z.mod_add by lia. apply Z.mod_small. exact Hr.
Qed.

Lemma sequence_counter_wraps_witness :
  fst (fetch_add_seq (Nat.iter 3 (fun s => snd (fetch_add_seq s))
                        (set_seq 65534 engine_start))) = 1.
Proof.
  refine (proj1 (proj2 (sequence_counter_wraps (set_seq 65534 engine_start) 3 _))).
  cbn. lia.
Defined.

(** The counter is a 16-bit value in every state the engine reaches. *)
Lemma reachable_seq_range hst st : reachable hst st -> 0 <= g_seq st < 65536.
Proof.
  induction 1 as [|io st _ IH|st _ IH|ip tm n tt io st _ IH|w t st _ IH|k pr st _ IH].
  - cbn. lia.
  - unfold init_engine. repeat case_match; cbn; exact IH.
  - exact IH.
  - assert (0 <= wrap16 (g_seq st + 1) < 65536) as Hw
      by (apply Z.mod_pos_bound; lia).
    unfold ping_begin, local_ping, fetch_add_seq.
    repeat case_match; simplify_eq; cbn [snd g_seq log_event set_seq set_sock];
      try done.
    all: match goal with
         | H : emplace ?h ?k ?p ?x = (_, ?e) |- _ =>
             destruct (emplace_frame h k p x) as (_ & _ & Hq & _);
             rewrite H in Hq; cbn [snd] in Hq
         end.
    all: try (rewrite Hq; exact Hw).
    all: match goal with |- context [drop_local ?o ?p ?x] =>
           destruct (drop_local_frame o p x) as (_ & _ & -> & _) end.
    all: match goal with |- context [erase ?k ?x] =>
           destruct (erase_frame k x) as (_ & _ & -> & _) end.
    all: cbn [g_seq log_event set_sock]; rewrite Hq; exact Hw.
  - destruct (ping_finish_frame w t st) as (_ & _ & -> & _). exact IH.
  - destruct (resolve_waiter_frame k pr st) as (_ & _ & -> & _). exact IH.
Qed.

(** ** The table invariant *)

Section TableInvariant.

Implicit Types (m : gmap Key nat) (h : store) (ws : list waiter).

(** The shared states may change off the table, as long as none is lost. *)
Lemma tinv_heap m h h' ws :
  tinv m h ws ->
  (forall k p, m !! k = Some p -> h' !! p = h !! p) ->
  (forall q, is_Some (h !! q) -> is_Some (h' !! q)) ->
  tinv m h' ws.
Proof.
  intros [Hp Hi Ho Hw] Hsame Hdom. split; [|done|done|].
  - intros k p Hk. rewrite (Hsame k p Hk). eauto.
  - intros w Hin. destruct (Hw w Hin) as [Hs Hn]. split; [auto|done].
Qed.

Lemma tinv_delete m h ws k :
  tinv m h ws -> tinv (delete k m) h ws.
Proof.
  intros [Hp Hi Ho Hw]. split.
  - intros k' p Hk. apply lookup_delete_Some in Hk as [_ Hk]. eauto.
  - intros k1 k2 p H1 H2.
    apply lookup_delete_Some in H1 as [_ H1].
    apply lookup_delete_Some in H2 as [_ H2]. eauto.
  - intros k' p Hk. apply lookup_delete_Some in Hk as [_ Hk]. eauto.
  - intros w Hin. destruct (Hw w Hin) as [Hs Hn]. split; [done|].
    intros k' Hk. apply lookup_delete_Some in Hk as [_ Hk]. eauto.
Qed.

(** Once its entry is deleted, a promise is nowhere in the table. *)
Lemma tinv_deleted_gone m h ws k q k' :
  tinv m h ws -> m !! k = Some q -> delete k m !! k' <> Some q.
Proof.
  intros [_ Hi _ _] Hk Hk'. apply lookup_delete_Some in Hk' as [Hne Hk'].
  apply Hne. eauto.
Qed.

Lemma tinv_insert m h ws k t :
  tinv m h ws ->
  m !! k = None ->
  tinv (<[k := fresh (dom h)]> m) (heap_with_waiter h)
    ({| w_key := k; w_fut := fresh (dom h); w_t_send := t;
        w_owns_promise := false |} :: ws).
Proof.
  intros [Hp Hi Ho Hw] Hfree.
  assert (forall q, is_Some (h !! q) -> q <> fresh (dom h)) as Hfresh.
  { intros q Hq ->. apply (is_fresh (dom h)). by apply elem_of_dom. }
  assert (forall k' p, m !! k' = Some p -> p <> fresh (dom h)) as Hold.
  { intros k' p Hk. apply Hfresh. apply Hp in Hk. eauto. }
  split.
  - intros k' p Hk. apply lookup_insert_Some in Hk as [[<- <-]|[Hne Hk]].
    + apply heap_with_waiter_new.
    + apply heap_with_waiter_old. eauto.
  - intros k1 k2 p H1 H2.
    apply lookup_insert_Some in H1 as [[E1 E1']|[Hne1 H1]];
      apply lookup_insert_Some in H2 as [[E2 E2']|[Hne2 H2]].
    + congruence.
    + exfalso. apply (Hold k2 p H2). congruence.
    + exfalso. apply (Hold k1 p H1). congruence.
    + eauto.
  - intros k' p Hk. apply lookup_insert_Some in Hk as [[<- <-]|[Hne Hk]].
    + eexists. split; [apply list_elem_of_here|]. done.
    + destruct (Ho k' p Hk) as (w & Hin & Hrest).
      exists w. split; [by apply list_elem_of_further|done].
  - intros w Hin. apply elem_of_cons in Hin as [->|Hin].
    + split; [cbn [w_fut]; rewrite heap_with_waiter_new; eauto|].
      cbn [w_fut w_key w_owns_promise]. intros k' Hk.
      apply lookup_insert_Some in Hk as [[<- _]|[_ Hk]]; [done|].
      by apply Hold in Hk.
    + destruct (Hw w Hin) as [[s Hs] Hn]. split.
      * rewrite (heap_with_waiter_old _ _ _ Hs). eauto.
      * intros k' Hk.
        apply lookup_insert_Some in Hk as [[_ E]|[_ Hk]]; [|eauto].
        exfalso. apply (Hfresh (w_fut w)); eauto.
Qed.

(** A probe whose promise is not in the table joins the waiting ones. *)
Lemma tinv_add_waiter m h ws w :
  tinv m h ws ->
  is_Some (h !! w_fut w) ->
  (forall k, m !! k <> Some (w_fut w)) ->
  tinv m h (w :: ws).
Proof.
  intros [Hp Hi Ho Hw] Hs Hn. split; [done|done| |].
  - intros k p Hk. destruct (Ho k p Hk) as (w' & Hin & Hrest).
    exists w'. split; [by apply list_elem_of_further|done].
  - intros w' Hin. apply elem_of_cons in Hin as [->|Hin]; [|eauto].
    split; [done|]. intros k Hk. by apply Hn in Hk.
Qed.

(** A probe whose promise is not in the table leaves. *)
Lemma tinv_remove_waiter m h ws1 ws2 w :
  tinv m h (ws1 ++ w :: ws2) ->
  (forall k, m !! k <> Some (w_fut w)) ->
  tinv m h (ws1 ++ ws2).
Proof.
  intros [Hp Hi Ho Hw] Hn. split; [done|done| |].
  - intros k p Hk. destruct (Ho k p Hk) as (w' & Hin & Hkey & Hfut & Hown).
    exists w'. split; [|done].
    apply elem_of_app in Hin as [Hin|Hin]; [apply elem_of_app; by left|].
    apply elem_of_cons in Hin as [->|Hin]; [|apply elem_of_app; by right].
    exfalso. apply (Hn k). by rewrite Hfut.
  - intros w' Hin. apply Hw.
    apply elem_of_app in Hin as [Hin|Hin]; apply elem_of_app; [by left|].
    right. by apply list_elem_of_further.
Qed.

Lemma tinv_empty h ws :
  (forall w, w ∈ ws -> is_Some (h !! w_fut w)) -> tinv ∅ h ws.
Proof.
  intros Hs. split; try (intros; by simplify_map_eq).
  intros w Hin. split; [auto|]. intros k. by rewrite lookup_empty.
Qed.

(** Breaking a promise that is not in the table. *)
Lemma tinv_destroy m h ws q :
  tinv m h ws ->
  (forall k, m !! k <> Some q) ->
  tinv m (promise_destroy q h) ws.
Proof.
  intros Hinv Hn. apply (tinv_heap m h); [done| |].
  - intros k p Hk. rewrite promise_destroy_lookup.
    rewrite decide_False; [done|]. intros ->. by apply (Hn k).
  - intros q' [s Hs]. rewrite promise_destroy_lookup.
    case_decide; rewrite Hs; cbn; eauto.
Qed.

Lemma tinv_set_value m h ws q v :
  tinv m h ws ->
  (forall k, m !! k <> Some q) ->
  tinv m (try_set_value q v h) ws.
Proof.
  intros Hinv Hn. apply (tinv_heap m h); [done| |].
  - intros k p Hk. rewrite try_set_value_lookup.
    rewrite decide_False; [done|]. intros ->. by apply (Hn k).
  - intros q' [s Hs]. rewrite try_set_value_lookup.
    case_decide; rewrite Hs; cbn; eauto.
Qed.

(** A fresh promise with its future taken, not yet in the table. *)
Lemma tinv_new_promise m h ws :
  tinv m h ws -> tinv m (heap_with_waiter h) ws.
Proof.
  intros Hinv. apply (tinv_heap m h); [done| |].
  - intros k p Hk. destruct Hinv as [Hp _ _ _].
    rewrite (heap_with_waiter_old _ _ _ (Hp k p Hk)). symmetry. eauto.
  - intros q [s Hs]. rewrite (heap_with_waiter_old _ _ _ Hs). eauto.
Qed.

Lemma tinv_fresh_not_in_table m h ws k :
  tinv m h ws -> m !! k <> Some (fresh (dom h)).
Proof.
  intros [Hp _ _ _] Hk. apply Hp in Hk.
  apply (is_fresh (dom h)). apply elem_of_dom. eauto.
Qed.

Lemma table_inv_erase st ws k :
  table_inv st ws -> table_inv (erase k st) ws.
Proof.
  unfold table_inv, erase. intros Hinv.
  destruct (g_waiters st !! k) as [q|] eqn:Hk; [|done].
  cbn [g_waiters heap set_waiters].
  apply tinv_destroy; [by apply tinv_delete|].
  intros k'. by eapply tinv_deleted_gone.
Qed.

Lemma table_inv_drop_local st ws owns p :
  table_inv st ws ->
  (owns = true -> forall k, g_waiters st !! k <> Some p) ->
  table_inv (drop_local owns p st) ws.
Proof.
  unfold table_inv, drop_local. intros Hinv Hn.
  destruct owns; [|done]. cbn [g_waiters heap set_waiters].
  apply tinv_destroy; auto.
Qed.

Lemma table_inv_resolve st ws k probe :
  table_inv st ws -> table_inv (snd (resolve_waiter k probe st)) ws.
Proof.
  unfold table_inv, resolve_waiter. intros Hinv.
  destruct (g_waiters st !! k) as [q|] eqn:Hk; [|done].
  cbn [snd g_waiters heap set_waiters].
  assert (forall k', delete k (g_waiters st) !! k' <> Some q) as Hgone
    by (intros k'; by eapply tinv_deleted_gone).
  apply tinv_destroy; [|done]. apply tinv_set_value; [|done].
  by apply tinv_delete.
Qed.

Lemma table_inv_shutdown hst st ws :
  table_inv st ws -> table_inv (shutdown_engine hst st) ws.
Proof.
  unfold table_inv. intros [_ _ _ Hw].
  change (g_waiters (shutdown_engine hst st)) with (∅ : gmap Key nat).
  apply tinv_empty. intros w Hin. destruct (Hw w Hin) as [[s Hs] _].
  rewrite shutdown_heap_lookup. case_decide; rewrite Hs; cbn; eauto.
Qed.

End TableInvariant.

Lemma init_engine_frame hst io st :
  g_waiters (snd (init_engine hst io st)) = g_waiters st /\
  heap (snd (init_engine hst io st)) = heap st.
Proof. unfold init_engine. repeat case_match; done. Qed.

Lemma local_ping_frame hst dst payload_size ttl_opt io st :
  g_waiters (snd (local_ping hst dst payload_size ttl_opt io st)) = g_waiters st /\
  heap (snd (local_ping hst dst payload_size ttl_opt io st)) = heap st /\
  forall w, fst (local_ping hst dst payload_size ttl_opt io st) <> Awaiting w.
Proof.
  unfold local_ping, fetch_add_seq. repeat case_match; done.
Qed.

Lemma table_inv_begin hst ip timeout_ms payload_size ttl_opt io st ws :
  table_inv st ws ->
  0 <= payload_size ->
  table_inv (snd (ping_begin hst ip timeout_ms payload_size ttl_opt io st))
    (match fst (ping_begin hst ip timeout_ms payload_size ttl_opt io st) with
     | Awaiting w => w :: ws
     | _ => ws
     end).
Proof.
  intros Hinv Hsize.
  destruct (inet_pton hst ip) as [dst|] eqn:Hip;
    [|unfold ping_begin; rewrite Hip; exact Hinv].
  destruct (is_local_ipv4_addr hst dst) eqn:Hloc.
  { unfold ping_begin. rewrite Hip, Hloc.
    destruct (local_ping_frame hst dst payload_size ttl_opt io st) as (Ht & Hh & Hw).
    unfold table_inv. rewrite Ht, Hh.
    destruct (fst (local_ping hst dst payload_size ttl_opt io st)) eqn:E;
      try exact Hinv.
    by destruct (Hw w). }
  destruct (g_sock st) as [s|] eqn:Hsock;
    [|unfold ping_begin; rewrite Hip, Hloc, Hsock; exact Hinv].
  rewrite (ping_begin_engine _ _ _ _ _ _ _ _ _ Hip Hloc Hsock Hsize).
  cbv zeta. unfold table_inv in *.
  pose proof (tinv_new_promise _ _ _ Hinv) as H0.
  pose proof (fun k => tinv_fresh_not_in_table _ _ _ k Hinv) as Hfresh.
  set (k := mkKey (probe_id hst) (g_seq st)) in *.
  set (p := fresh (dom (heap st))) in *.
  unfold emplace. cbn [g_waiters heap set_waiters set_seq].
  destruct (g_waiters st !! k) as [q|] eqn:Hk.
  - destruct (emplace_builds_first hst); cbn [fst snd].
    + (* the node was built and destroyed with the promise in it *)
      pose proof (tinv_destroy _ _ _ p H0 Hfresh) as H1.
      destruct (sendto_ok io); cbn [fst snd].
      * cbn [g_waiters heap log_event set_sock set_waiters].
        apply tinv_add_waiter; [done| |done].
        cbn [w_fut]. rewrite promise_destroy_lookup, decide_True by done.
        unfold p. rewrite heap_with_waiter_new. cbn. eauto.
      * cbn [drop_local].
        match goal with |- tinv (g_waiters (erase k ?x)) _ _ =>
          apply (table_inv_erase x ws k) end.
        exact H1.
    + (* the promise stayed with the probe *)
      destruct (sendto_ok io); cbn [fst snd].
      * cbn [g_waiters heap log_event set_sock set_waiters].
        apply tinv_add_waiter; [done| |done].
        cbn [w_fut]. unfold p. rewrite heap_with_waiter_new. eauto.
      * match goal with |- tinv (g_waiters (drop_local true p (erase k ?x))) _ _ =>
          apply (table_inv_drop_local (erase k x) ws true p);
            [apply (table_inv_erase x ws k); exact H0|] end.
        intros _ k'. unfold erase.
        cbn [g_waiters heap log_event set_sock set_waiters]. rewrite Hk.
        cbn [g_waiters set_waiters]. intros Hk'.
        apply lookup_delete_Some in Hk' as [_ Hk']. by apply (Hfresh k').
  - cbn [fst snd]. destruct (sendto_ok io); cbn [fst snd].
    + cbn [g_waiters heap log_event set_sock set_waiters].
      by apply tinv_insert.
    + cbn [drop_local]. unfold erase.
      cbn [g_waiters heap log_event set_sock set_waiters].
      rewrite lookup_insert_eq. cbn [g_waiters heap set_waiters].
      rewrite delete_insert_id by exact Hk.
      by apply tinv_destroy.
Qed.

Lemma table_inv_finish w t_recv st ws1 ws2 :
  table_inv st (ws1 ++ w :: ws2) ->
  table_inv (snd (ping_finish w t_recv st)) (ws1 ++ ws2).
Proof.
  intros Hinv.
  assert (w ∈ ws1 ++ w :: ws2) as Hin
    by (apply elem_of_app; right; apply list_elem_of_here).
  destruct (inv_waiting _ _ _ Hinv w Hin) as [_ Hmine].
  unfold ping_finish.
  destruct (future_ready (w_fut w) (heap st)) eqn:Hready.
  - (* resolved: the promise has left the table *)
    assert (forall k, g_waiters st !! k <> Some (w_fut w)) as Hgone.
    { intros k Hk. apply (inv_pending _ _ _ Hinv) in Hk.
      unfold future_ready in Hready. by rewrite Hk in Hready. }
    assert (table_inv (drop_local (w_owns_promise w) (w_fut w) st) (ws1 ++ ws2)).
    { apply table_inv_drop_local; [|auto].
      unfold table_inv. by eapply tinv_remove_waiter. }
    by destruct (future_get (w_fut w) (heap st)).
  - (* timed out: the probe erases its key *)
    cbn [snd].
    pose proof (table_inv_erase st _ (w_key w) Hinv) as H1.
    assert (forall k, g_waiters (erase (w_key w) st) !! k <> Some (w_fut w)) as Hgone.
    { intros k Hk. unfold erase in Hk.
      destruct (g_waiters st !! w_key w) as [q|] eqn:Hq.
      - cbn [g_waiters set_waiters] in Hk.
        apply lookup_delete_Some in Hk as [Hne Hk].
        by destruct (Hmine k Hk) as [-> _].
      - destruct (Hmine k Hk) as [-> _]. congruence. }
    apply table_inv_drop_local; [|auto].
    unfold table_inv in *. by eapply tinv_remove_waiter.
Qed.

Lemma runs_table_inv hst st ws : runs hst st ws -> table_inv st ws.
Proof.
  induction 1 as [|io st ws _ IH|st ws _ IH|ip tm n tt io st ws _ IH Hn
                  |w t st ws1 ws2 _ IH|k pr st ws _ IH].
  - apply tinv_empty. intros w Hin. by apply elem_of_nil in Hin.
  - unfold table_inv.
    destruct (init_engine_frame hst io st) as [-> ->]. exact IH.
  - by apply table_inv_shutdown.
  - by apply table_inv_begin.
  - by apply table_inv_finish.
  - by apply table_inv_resolve.
Qed.

(** X11 — the table invariant.  In every run of the engine (any
    interleaving of [init_engine], [shutdown_engine], probes with a
    non-negative payload size, and listener dispatches): every promise in
    the table is pending with its future taken; no promise is registered
    under two keys; every entry belongs to a probe that is still blocked in
    [wait_for] and is registered under that probe's key; and the future of
    every waiting probe has a shared state.  In particular, when no probe
    is waiting the table is empty: nothing leaks. *)
Theorem runs_keep_table_invariant hst st ws :
  runs hst st ws ->
  table_inv st ws /\ (ws = [] -> g_waiters st = ∅).
Proof.
  intros Hruns. pose proof (runs_table_inv hst st ws Hruns) as Hinv.
  split; [exact Hinv|]. intros ->.
  apply map_eq. intros k. rewrite lookup_empty.
  destruct (g_waiters st !! k) as [p|] eqn:Hk; [|reflexivity].
  destruct (inv_owned _ _ _ Hinv k p Hk) as (w & Hin & _).
  by apply elem_of_nil in Hin.
Qed.

Lemma runs_keep_table_invariant_witness :
  table_inv (snd (sample_probe Linux)) [sample_waiter].
Proof.
  apply (runs_keep_table_invariant (sample_host Linux) _ [sample_waiter]).
  pose proof (runs_begin (sample_host Linux) "10.0.0.7" 1000 0 (-1) sample_io
                (sample_running Linux) []
                (runs_init _ sample_init _ _ (runs_start _)) ltac:(lia)) as H.
  change (ping_begin _ _ _ _ _ _ _) with (sample_probe Linux) in H.
  rewrite (sample_probe_waits Linux) in H. exact H.
Defined.

Lemma runs_reachable hst st ws : runs hst st ws -> reachable hst st.
Proof. induction 1; by constructor. Qed.

(** ** Delivery by the listener *)

(** X12 — a reply reaches its waiter and no other.  In every run, when the
    listener dispatches a reply for a registered key, [set_value] takes
    effect: the promise of that key becomes ready with the listener's
    result.  Every other entry stays in the table with its promise still
    pending: no probe is resolved by a reply for another key. *)
Theorem reply_reaches_its_waiter_only hst st ws k p probe :
  runs hst st ws ->
  g_waiters st !! k = Some p ->
  let st' := snd (resolve_waiter k probe st) in
  heap st' !! p = Some {| retrieved := true; status := Ready probe |} /\
  g_waiters st' !! k = None /\
  forall k' p',
    k' <> k -> g_waiters st !! k' = Some p' ->
    g_waiters st' !! k' = Some p' /\
    heap st' !! p' = Some {| retrieved := true; status := Pending |}.
Proof.
  intros Hruns Hk. cbv zeta.
  pose proof (runs_table_inv hst st ws Hruns) as Hinv.
  pose proof (inv_pending _ _ _ Hinv k p Hk) as Hp.
  destruct (resolve_waiter_present k probe st p _ Hk Hp eq_refl) as (_ & Ht & Hh).
  split; [exact Hh|]. split; [apply resolve_waiter_removes|].
  intros k' p' Hne Hk'. rewrite Ht.
  split; [by rewrite lookup_delete_ne|].
  assert (p' <> p) as Hpp.
  { intros ->. apply Hne. by apply (inv_inj _ _ _ Hinv k' k p). }
  unfold resolve_waiter. rewrite Hk. cbn [snd heap set_waiters].
  rewrite promise_destroy_lookup, try_set_value_lookup, !decide_False by done.
  by apply (inv_pending _ _ _ Hinv k').
Qed.

Lemma reply_reaches_its_waiter_only_witness :
  heap (snd (resolve_waiter (mkKey 4660 1) (listener_result 57)
               (snd (sample_probe Linux)))) !! 0%nat
  = Some {| retrieved := true; status := Ready (listener_result 57) |}.
Proof.
  refine (proj1 (reply_reaches_its_waiter_only (sample_host Linux)
                   (snd (sample_probe Linux)) [sample_waiter] (mkKey 4660 1) 0%nat
                   (listener_result 57) _ _)).
  - pose proof (runs_begin (sample_host Linux) "10.0.0.7" 1000 0 (-1) sample_io
                  (sample_running Linux) []
                  (runs_init _ sample_init _ _ (runs_start _)) ltac:(lia)) as H.
    change (ping_begin _ _ _ _ _ _ _) with (sample_probe Linux) in H.
    rewrite (sample_probe_waits Linux) in H. exact H.
  - vm_compute; reflexivity.
Defined.

Lemma probe_id_range hst : 0 <= probe_id hst < 65536.
Proof. unfold probe_id. rewrite land16. apply Z.mod_pos_bound. lia. Qed.

(** The listener's loop on a single Echo Reply for key [k]. *)
Lemma listener_linux_one_reply st s buf cmsg t_arr :
  g_sock st = Some s ->
  g_running st = true ->
  (8 <= Z.of_nat (length buf)) ->
  u8 (byte_at 0 buf) = 0 ->
  listener_loop_linux
    [Received {| a_bytes := buf; a_cmsg_ttl := cmsg; a_time := t_arr |}] st
  = snd (resolve_waiter (mkKey (ntohs (load16_at 4 buf)) (ntohs (load16_at 6 buf)))
           (listener_result (cmsg_ttl cmsg)) st).
Proof.
  intros Hs Hr Hlen Htype. unfold listener_loop_linux. rewrite Hs.
  cbn [listener_events_linux a_bytes a_cmsg_ttl]. rewrite Hr. cbn [negb].
  rewrite recvmsg_control_fits by (unfold CMSG_SPACE_int, sizeof_cbuf; lia).
  assert ((Z.of_nat (length buf) =? 0) = false) as -> by lia.
  assert ((Z.of_nat (length buf) <? 8) = false) as -> by lia.
  rewrite Htype. reflexivity.
Qed.

(** X13 — a probe answered in time (Linux).  Let a probe on the engine
    path of the Linux engine register a fresh key and send its request.
    When the listener then receives the Echo Reply that echoes that
    request, the probe returns success with the TTL of the reply's control
    message (-1 if there was none) and [rtt_ms = t_recv - t_send] from its
    own clock, and the table is again what it was before the probe. *)
Theorem probe_answered_in_time_linux
    hst ip timeout_ms payload_size ttl_opt io st dst s cmsg t_arr t_recv :
  reachable hst st ->
  g_running st = true ->
  inet_pton hst ip = Some dst ->
  is_local_ipv4_addr hst dst = false ->
  g_sock st = Some s ->
  0 <= payload_size ->
  g_waiters st !! mkKey (probe_id hst) (g_seq st) = None ->
  sendto_ok io = true ->
  exists w packet t,
    fst (ping_begin hst ip timeout_ms payload_size ttl_opt io st) = Awaiting w /\
    net_log (snd (ping_begin hst ip timeout_ms payload_size ttl_opt io st))
      = Sendto dst packet t :: net_log st /\
    let st2 :=
      listener_loop_linux
        [Received {| a_bytes := as_reply packet; a_cmsg_ttl := cmsg;
                     a_time := t_arr |}]
        (snd (ping_begin hst ip timeout_ms payload_size ttl_opt io st)) in
    fst (ping_finish w t_recv st2)
      = Returned {| success := true; rtt_ms := t_recv - t_send io;
                    ttl := cmsg_ttl cmsg;
                    if_name := EmptyString; error_msg := EmptyString |} /\
    g_waiters st2 = g_waiters st.
Proof.
  intros Hreach Hrun Hip Hloc Hsock Hsize Hfree Hsend.
  destruct (ping_begin_registers hst ip timeout_ms payload_size ttl_opt io st
              dst s Hip Hloc Hsock Hsize Hfree Hsend) as (Hw & Ht & Hh & Hr & _).
  destruct (ping_begin_engine_log hst ip timeout_ms payload_size ttl_opt io st
              dst s Hip Hloc Hsock Hsize) as [Hlog Hs1].
  cbv zeta in Hlog, Hs1.
  set (st1 := snd (ping_begin hst ip timeout_ms payload_size ttl_opt io st)) in *.
  eexists _, _, _. split; [exact Hw|]. split; [exact Hlog|]. cbv zeta.
  destruct (as_reply_fields (pf hst) (probe_id hst) (g_seq st)
              (ticks io) (Z.to_nat payload_size) (probe_id_range hst)
              (reachable_seq_range hst st Hreach))
    as (Htype & Hid & Hseq & Hlen).
  rewrite (listener_linux_one_reply st1 _ _ cmsg t_arr Hs1)
    by (rewrite ?Hr, ?Hlen; first [exact Hrun | exact Htype | lia]).
  rewrite Hid, Hseq.
  assert (g_waiters st1 !! mkKey (probe_id hst) (g_seq st)
          = Some (fresh (dom (heap st)))) as Hk
    by (rewrite Ht; apply lookup_insert_eq).
  assert (heap st1 !! fresh (dom (heap st))
          = Some {| retrieved := true; status := Pending |}) as Hp
    by (rewrite Hh; apply heap_with_waiter_new).
  destruct (resolve_waiter_present _ (listener_result (cmsg_ttl cmsg)) st1 _ _
              Hk Hp eq_refl) as (_ & Ht2 & Hh2).
  split.
  - by rewrite (ping_finish_ready
                  {| w_key := mkKey (probe_id hst) (g_seq st);
                     w_fut := fresh (dom (heap st)); w_t_send := t_send io;
                     w_owns_promise := false |} t_recv _ _
                  (listener_result (cmsg_ttl cmsg)) Hh2 eq_refl).
  - rewrite Ht2, Ht. by apply delete_insert_id.
Qed.

Lemma probe_answered_in_time_linux_witness :
  exists w packet t,
    fst (sample_probe Linux) = Awaiting w /\
    net_log (snd (sample_probe Linux))
      = Sendto 117440522 packet t :: net_log (sample_running Linux) /\
    fst (ping_finish w 30
           (listener_loop_linux
              [Received {| a_bytes := as_reply packet; a_cmsg_ttl := Some 57;
                           a_time := 29 |}]
              (snd (sample_probe Linux))))
      = Returned {| success := true; rtt_ms := 25; ttl := 57;
                    if_name := EmptyString; error_msg := EmptyString |}.
Proof.
  destruct (probe_answered_in_time_linux (sample_host Linux) "10.0.0.7" 1000 0 (-1)
              sample_io (sample_running Linux) 117440522 {| ip_ttl := Some 64 |}
              (Some 57) 29 30
              (reach_init _ sample_init _ (reach_start _))
              eq_refl eq_refl eq_refl eq_refl ltac:(lia)
              ltac:(vm_compute; reflexivity) eq_refl)
    as (w & packet & t & Hw & Hlog & Hfin & _).
  exists w, packet, t. split; [exact Hw|]. split; [exact Hlog|exact Hfin].
Defined.

(** ** The control buffer of the Linux listener *)

Lemma listener_events_skip controllen a rest st :
  g_running st = true ->
  listener_skips a = true ->
  listener_events_linux controllen (Received a :: rest) st =
    listener_events_linux (snd (recvmsg_control controllen (a_cmsg_ttl a)))
      rest st.
Proof.
  intros Hr Hskip. cbn [listener_events_linux]. rewrite Hr. cbn [negb].
  destruct (recvmsg_control controllen (a_cmsg_ttl a)) as [cmsg room].
  cbn [snd]. unfold listener_skips, is_echo_reply in Hskip.
  apply andb_prop in Hskip as [H0 H1].
  apply negb_true_iff in H0. apply negb_true_iff in H1. rewrite H0.
  destruct (Z.ltb_spec (Z.of_nat (length (a_bytes a))) 8) as [Hl|Hl]; [done|].
  assert ((8 <=? Z.of_nat (length (a_bytes a))) = true) as E by lia.
  rewrite E in H1. cbn [andb] in H1. by rewrite H1.
Qed.

Lemma listener_events_take controllen a rest st :
  g_running st = true ->
  is_echo_reply a = true ->
  listener_events_linux controllen (Received a :: rest) st =
    listener_events_linux sizeof_cbuf rest
      (snd (resolve_waiter (reply_key a)
              (listener_result
                 (cmsg_ttl (fst (recvmsg_control controllen (a_cmsg_ttl a)))))
              st)).
Proof.
  intros Hr Ha. cbn [listener_events_linux]. rewrite Hr. cbn [negb].
  destruct (recvmsg_control controllen (a_cmsg_ttl a)) as [cmsg room].
  cbn [fst]. unfold is_echo_reply in Ha. apply andb_prop in Ha as [H0 H1].
  assert ((Z.of_nat (length (a_bytes a)) =? 0) = false) as -> by lia.
  assert ((Z.of_nat (length (a_bytes a)) <? 8) = false) as -> by lia.
  rewrite H1. reflexivity.
Qed.

Lemma listener_events_no_room skipped a rest st :
  g_running st = true ->
  forallb listener_skips skipped = true ->
  is_echo_reply a = true ->
  listener_events_linux 0 (map Received skipped ++ Received a :: rest) st =
    listener_events_linux sizeof_cbuf rest
      (snd (resolve_waiter (reply_key a) (listener_result (-1)) st)).
Proof.
  intros Hr Hskip Ha.
  induction skipped as [|a0 skipped IH]; cbn [map app].
  - by rewrite listener_events_take, recvmsg_control_no_room.
  - cbn [forallb] in Hskip. apply andb_prop in Hskip as [H0 Hskip].
    rewrite listener_events_skip, recvmsg_control_no_room by done.
    by apply IH.
Qed.

Lemma listener_events_with_room controllen skipped a rest st :
  CMSG_SPACE_int <= controllen ->
  g_running st = true ->
  forallb listener_skips skipped = true ->
  is_echo_reply a = true ->
  listener_events_linux controllen
    (map Received skipped ++ Received a :: rest) st =
    listener_events_linux sizeof_cbuf rest
      (snd (resolve_waiter (reply_key a)
              (listener_result (if forallb has_control skipped
                                then cmsg_ttl (a_cmsg_ttl a) else -1))
              st)).
Proof.
  intros Hroom Hr Hskip Ha. revert controllen Hroom.
  induction skipped as [|a0 skipped IH]; intros controllen Hroom;
    cbn [map app forallb].
  - by rewrite listener_events_take, recvmsg_control_fits.
  - cbn [forallb] in Hskip. apply andb_prop in Hskip as [H0 Hskip].
    rewrite listener_events_skip, recvmsg_control_fits by done. cbn [snd].
    unfold has_control at 1.
    destruct (a_cmsg_ttl a0); cbn [andb].
    + apply IH; [exact Hskip | lia].
    + by apply listener_events_no_room.
Qed.

(** X21 — the control buffer of the Linux listener.  While the engine runs,
    the listener passes over every datagram that is too short or is not an
    Echo Reply, and dispatches the first Echo Reply to the key it reads from
    it.  It restores [msg.msg_controllen] only at the end of the loop body,
    which [continue] skips: the TTL it hands over is that of the reply's
    control message only if every datagram passed over since the last
    dispatch carried control data, and -1 otherwise.  After the dispatch it
    goes on with the full buffer, as at its start. *)
Theorem listener_skipped_then_reply st s skipped a rest :
  g_sock st = Some s ->
  g_running st = true ->
  forallb listener_skips skipped = true ->
  is_echo_reply a = true ->
  listener_loop_linux (map Received skipped ++ Received a :: rest) st =
    listener_loop_linux rest
      (snd (resolve_waiter (reply_key a)
              (listener_result (if forallb has_control skipped
                                then cmsg_ttl (a_cmsg_ttl a) else -1))
              st)).
Proof.
  intros Hs Hr Hskip Ha. unfold listener_loop_linux.
  destruct (resolve_waiter_frame (reply_key a)
              (listener_result (if forallb has_control skipped
                                then cmsg_ttl (a_cmsg_ttl a) else -1)) st)
    as (Hs' & _).
  rewrite Hs', Hs.
  apply listener_events_with_room; [|exact Hr|exact Hskip|exact Ha].
  unfold CMSG_SPACE_int, sizeof_cbuf. lia.
Qed.

Lemma listener_skipped_then_reply_witness :
  listener_loop_linux
    [Received {| a_bytes := [x03; x01]; a_cmsg_ttl := None; a_time := 6 |};
     Received {| a_bytes := as_reply (echo_request Linux 4660 1 1000 0);
                 a_cmsg_ttl := Some 57; a_time := 17 |}]
    (snd (sample_probe Linux))
  = snd (resolve_waiter (mkKey 4660 1) (listener_result (-1))
           (snd (sample_probe Linux))).
Proof.
  refine (eq_trans
            (listener_skipped_then_reply (snd (sample_probe Linux))
               {| ip_ttl := Some 64 |}
               [{| a_bytes := [x03; x01]; a_cmsg_ttl := None; a_time := 6 |}]
               {| a_bytes := as_reply (echo_request Linux 4660 1 1000 0);
                  a_cmsg_ttl := Some 57; a_time := 17 |} [] _ _ _ _) _);
    vm_compute; reflexivity.
Defined.

(** ** The Windows listener: from captured frame to key *)

Lemma byte_at_app_l i (l1 l2 : list byte) :
  (i < length l1)%nat -> byte_at i (l1 ++ l2) = byte_at i l1.
Proof. intros H. unfold byte_at. by rewrite lookup_app_l. Qed.

Lemma byte_at_app_r i (l1 l2 : list byte) :
  byte_at (length l1 + i) (l1 ++ l2) = byte_at i l2.
Proof.
  unfold byte_at. rewrite lookup_app_r by lia.
  by replace (length l1 + i - length l1)%nat with i by lia.
Qed.

Lemma load16_at_app_r off (l1 l2 : list byte) :
  load16_at (length l1 + off) (l1 ++ l2) = load16_at off l2.
Proof.
  unfold load16_at. rewrite byte_at_app_r.
  replace (S (length l1 + off)) with (length l1 + S off)%nat by lia.
  by rewrite byte_at_app_r.
Qed.

Lemma frame_reply_layout (eth ip icmp : list byte) :
  length eth = 14%nat ->
  Z.shiftr (u8 (byte_at 0 ip)) 4 = 4 ->
  u8 (byte_at 9 ip) = 1 ->
  Z.of_nat (length ip) = 4 * Z.land (u8 (byte_at 0 ip)) 0x0F ->
  20 <= Z.of_nat (length ip) ->
  8 <= Z.of_nat (length icmp) ->
  u8 (byte_at 0 icmp) = 0 ->
  frame_reply (eth ++ ip ++ icmp) =
    Some (mkKey (ntohs (load16_at 4 icmp)) (ntohs (load16_at 6 icmp)),
          u8 (byte_at 8 ip)).
Proof.
  intros Heth Hver Hproto Hihl Hmin Hicmp Htype.
  assert (forall i, byte_at (14 + i) (eth ++ ip ++ icmp) = byte_at i (ip ++ icmp)) as Hskip
    by (intros i; rewrite <- Heth; apply byte_at_app_r).
  assert (forall i, (i < 20)%nat ->
            byte_at (14 + i) (eth ++ ip ++ icmp) = byte_at i ip) as Hip.
  { intros i Hi. rewrite Hskip. apply byte_at_app_l. lia. }
  unfold frame_reply.
  rewrite !length_app, Heth.
  assert ((Z.of_nat (14 + (length ip + length icmp)) <? 14 + 20) = false) as ->
    by (apply Z.ltb_ge; lia).
  pose proof (Hip 0%nat ltac:(lia)) as H0. cbn [Nat.add] in H0.
  pose proof (Hip 8%nat ltac:(lia)) as H8. cbn [Nat.add] in H8.
  pose proof (Hip 9%nat ltac:(lia)) as H9. cbn [Nat.add] in H9.
  rewrite H0, H8, H9, Hver, Hproto. cbn [Z.eqb Pos.eqb negb].
  assert (ip_header_length (u8 (byte_at 0 ip)) = Z.of_nat (length ip)) as ->.
  { unfold ip_header_length. rewrite Hihl.
    assert (0 <= Z.land (u8 (byte_at 0 ip)) 15 < 16).
    { change 15 with (Z.ones 4). rewrite Z.land_ones by lia.
      apply Z.mod_pos_bound. lia. }
    rewrite Z.mod_small by lia. lia. }
  assert ((Z.of_nat (14 + (length ip + length icmp))
           <? 14 + Z.of_nat (length ip) + 8) = false) as ->
    by (apply Z.ltb_ge; lia).
  rewrite Nat2Z.id.
  assert (forall i, (14 + length ip + i)%nat = (length (eth ++ ip) + i)%nat) as Hoff
    by (intros i; rewrite length_app, Heth; reflexivity).
  replace (14 + length ip)%nat with (14 + length ip + 0)%nat at 1 by lia.
  rewrite !Hoff, !app_assoc, byte_at_app_r, !load16_at_app_r.
  rewrite Htype. reflexivity.
Qed.

Lemma listener_win_one_frame st data k ttl_val :
  g_cap st = true ->
  g_running st = true ->
  frame_reply data = Some (k, ttl_val) ->
  listener_loop_win [PcapPacket data] st
  = snd (resolve_waiter k (listener_result ttl_val) st).
Proof.
  intros Hc Hr Hf. unfold listener_loop_win. rewrite Hc. cbn [negb].
  cbn [listener_events_win]. rewrite Hr, Hf. reflexivity.
Qed.

(** X14 — what the Windows listener takes from a frame.  A captured frame
    made of a 14-byte link header, an IPv4 header (version 4, protocol 1,
    header length as its IHL field says, options allowed) and an ICMP Echo
    Reply of at least 8 bytes gets through every check of the listener,
    which reads the key from the ICMP header behind the IP options and the
    TTL from the IP header, and dispatches the reply to that key. *)
Theorem frame_reply_decodes (eth ip icmp : list byte) st :
  length eth = 14%nat ->
  Z.shiftr (u8 (byte_at 0 ip)) 4 = 4 ->
  u8 (byte_at 9 ip) = 1 ->
  Z.of_nat (length ip) = 4 * Z.land (u8 (byte_at 0 ip)) 0x0F ->
  20 <= Z.of_nat (length ip) ->
  8 <= Z.of_nat (length icmp) ->
  u8 (byte_at 0 icmp) = 0 ->
  g_cap st = true ->
  g_running st = true ->
  frame_reply (eth ++ ip ++ icmp) =
    Some (mkKey (ntohs (load16_at 4 icmp)) (ntohs (load16_at 6 icmp)),
          u8 (byte_at 8 ip)) /\
  listener_loop_win [PcapPacket (eth ++ ip ++ icmp)] st =
    snd (resolve_waiter
           (mkKey (ntohs (load16_at 4 icmp)) (ntohs (load16_at 6 icmp)))
           (listener_result (u8 (byte_at 8 ip))) st).
Proof.
  intros Heth Hver Hproto Hihl Hmin Hicmp Htype Hcap Hrun.
  pose proof (frame_reply_layout eth ip icmp Heth Hver Hproto Hihl Hmin Hicmp Htype)
    as Hf.
  split; [exact Hf|]. by apply listener_win_one_frame.
Qed.

Lemma frame_reply_decodes_witness :
  frame_reply (sample_eth ++ sample_ip
               ++ as_reply (echo_request Windows 4660 513 1000 2))
  = Some (mkKey 4660 513, 57).
Proof.
  refine (eq_trans
            (proj1 (frame_reply_decodes sample_eth sample_ip
               (as_reply (echo_request Windows 4660 513 1000 2))
               (sample_running Windows)
               eq_refl eq_refl eq_refl eq_refl _ _ eq_refl eq_refl eq_refl)) _).
  - vm_compute; discriminate.
  - vm_compute; discriminate.
  - vm_compute; reflexivity.
Defined.


(** X15 — a probe answered in time (Windows).  Let a probe on the engine
    path of the Windows engine register a fresh key and send its request.
    When the capture then delivers the frame that carries the Echo Reply
    echoing that request, the probe returns success with the TTL field of
    the reply's IP header and [rtt_ms = t_recv - t_send] from its own
    clock, and the table is again what it was before the probe. *)
Theorem probe_answered_in_time_windows
    hst ip timeout_ms payload_size ttl_opt io st dst s eth iph t_recv :
  reachable hst st ->
  g_running st = true ->
  g_cap st = true ->
  inet_pton hst ip = Some dst ->
  is_local_ipv4_addr hst dst = false ->
  g_sock st = Some s ->
  0 <= payload_size ->
  g_waiters st !! mkKey (probe_id hst) (g_seq st) = None ->
  sendto_ok io = true ->
  length eth = 14%nat ->
  Z.shiftr (u8 (byte_at 0 iph)) 4 = 4 ->
  u8 (byte_at 9 iph) = 1 ->
  Z.of_nat (length iph) = 4 * Z.land (u8 (byte_at 0 iph)) 0x0F ->
  20 <= Z.of_nat (length iph) ->
  exists w packet t,
    fst (ping_begin hst ip timeout_ms payload_size ttl_opt io st) = Awaiting w /\
    net_log (snd (ping_begin hst ip timeout_ms payload_size ttl_opt io st))
      = Sendto dst packet t :: net_log st /\
    let st2 :=
      listener_loop_win [PcapPacket (eth ++ iph ++ as_reply packet)]
        (snd (ping_begin hst ip timeout_ms payload_size ttl_opt io st)) in
    fst (ping_finish w t_recv st2)
      = Returned {| success := true; rtt_ms := t_recv - t_send io;
                    ttl := u8 (byte_at 8 iph);
                    if_name := EmptyString; error_msg := EmptyString |} /\
    g_waiters st2 = g_waiters st.
Proof.
  intros Hreach Hrun Hcap Hip Hloc Hsock Hsize Hfree Hsend Heth Hver Hproto Hihl Hmin.
  destruct (ping_begin_registers hst ip timeout_ms payload_size ttl_opt io st
              dst s Hip Hloc Hsock Hsize Hfree Hsend)
    as (Hw & Ht & Hh & Hr & Hc).
  destruct (ping_begin_engine_log hst ip timeout_ms payload_size ttl_opt io st
              dst s Hip Hloc Hsock Hsize) as [Hlog _].
  cbv zeta in Hlog.
  set (st1 := snd (ping_begin hst ip timeout_ms payload_size ttl_opt io st)) in *.
  eexists _, _, _. split; [exact Hw|]. split; [exact Hlog|]. cbv zeta.
  destruct (as_reply_fields (pf hst) (probe_id hst) (g_seq st)
              (ticks io) (Z.to_nat payload_size) (probe_id_range hst)
              (reachable_seq_range hst st Hreach))
    as (Htype & Hid & Hseq & Hlen).
  rewrite (listener_win_one_frame st1 _ (mkKey (probe_id hst) (g_seq st))
             (u8 (byte_at 8 iph)))
    by (rewrite ?Hr, ?Hc; first
          [ exact Hrun | exact Hcap
          | rewrite frame_reply_layout, ?Hid, ?Hseq, ?Hlen;
            first [done | lia] ]).
  assert (g_waiters st1 !! mkKey (probe_id hst) (g_seq st)
          = Some (fresh (dom (heap st)))) as Hk
    by (rewrite Ht; apply lookup_insert_eq).
  assert (heap st1 !! fresh (dom (heap st))
          = Some {| retrieved := true; status := Pending |}) as Hp
    by (rewrite Hh; apply heap_with_waiter_new).
  destruct (resolve_waiter_present _ (listener_result (u8 (byte_at 8 iph))) st1 _ _
              Hk Hp eq_refl) as (_ & Ht2 & Hh2).
  split.
  - by rewrite (ping_finish_ready
                  {| w_key := mkKey (probe_id hst) (g_seq st);
                     w_fut := fresh (dom (heap st)); w_t_send := t_send io;
                     w_owns_promise := false |} t_recv _ _
                  (listener_result (u8 (byte_at 8 iph))) Hh2 eq_refl).
  - rewrite Ht2, Ht. by apply delete_insert_id.
Qed.

Lemma probe_answered_in_time_windows_witness :
  exists w packet t,
    fst (sample_probe Windows) = Awaiting w /\
    net_log (snd (sample_probe Windows))
      = Sendto 117440522 packet t :: net_log (sample_running Windows) /\
    fst (ping_finish w 30
           (listener_loop_win [PcapPacket (sample_eth ++ sample_ip ++ as_reply packet)]
              (snd (sample_probe Windows))))
      = Returned {| success := true; rtt_ms := 25; ttl := 57;
                    if_name := EmptyString; error_msg := EmptyString |}.
Proof.
  destruct (probe_answered_in_time_windows (sample_host Windows) "10.0.0.7" 1000 0
              (-1) sample_io (sample_running Windows) 117440522 {| ip_ttl := None |}
              sample_eth sample_ip 30
              (reach_init _ sample_init _ (reach_start _))
              eq_refl eq_refl eq_refl eq_refl eq_refl ltac:(lia)
              ltac:(vm_compute; reflexivity) eq_refl eq_refl eq_refl eq_refl
              eq_refl ltac:(vm_compute; discriminate))
    as (w & packet & t & Hw & Hlog & Hfin & _).
  exists w, packet, t. split; [exact Hw|]. split; [exact Hlog|exact Hfin].
Defined.

(** ** [ping_host]: the retry loop over single probes *)

Lemma ping_host_loop_inv once stop n : forall i result any_ok,
  host_inv result any_ok ->
  host_inv (fst (ping_host_loop once stop n i result any_ok))
           (snd (ping_host_loop once stop n i result any_ok)).
Proof.
  induction n as [|n IH]; intros i result any_ok Hinv; [exact Hinv|].
  cbn [ping_host_loop].
  destruct Hinv as (Hok & Hnone & Hsome).
  destruct (success (once i)) eqn:Hs.
  - (* a reply *)
    assert (host_inv
              (if negb any_ok || (rtt_ms (once i) <? pr_rtt_ms result)
               then {| pr_reachable := pr_reachable result;
                       pr_rtt_ms := rtt_ms (once i); pr_ttl := ttl (once i);
                       pr_probes := pr_probes result ++ [once i] |}
               else {| pr_reachable := pr_reachable result;
                       pr_rtt_ms := pr_rtt_ms result; pr_ttl := pr_ttl result;
                       pr_probes := pr_probes result ++ [once i] |}) true) as Hnew.
    { destruct any_ok.
      - destruct (Hsome eq_refl) as ((p & Hin & Hps & Hprtt & Hpttl) & Hmin).
        cbn [negb orb].
        destruct (Z.ltb_spec (rtt_ms (once i)) (pr_rtt_ms result)) as [Hlt|Hge].
        + split; [|split; [done|intros _; split]]; cbn [pr_probes pr_rtt_ms pr_ttl].
          * rewrite existsb_app. cbn. by rewrite Hs, orb_true_r.
          * exists (once i). split; [apply elem_of_app; right; apply list_elem_of_here|done].
          * intros q Hq Hqs. apply elem_of_app in Hq as [Hq|Hq].
            -- specialize (Hmin q Hq Hqs). lia.
            -- apply list_elem_of_singleton in Hq as ->. lia.
        + split; [|split; [done|intros _; split]]; cbn [pr_probes pr_rtt_ms pr_ttl].
          * rewrite existsb_app. cbn. by rewrite Hs, orb_true_r.
          * exists p. split; [apply elem_of_app; by left|done].
          * intros q Hq Hqs. apply elem_of_app in Hq as [Hq|Hq].
            -- by apply Hmin.
            -- apply list_elem_of_singleton in Hq as ->. lia.
      - cbn [negb orb].
        split; [|split; [done|intros _; split]]; cbn [pr_probes pr_rtt_ms pr_ttl].
        + rewrite existsb_app. cbn. by rewrite Hs, orb_true_r.
        + exists (once i). split; [apply elem_of_app; right; apply list_elem_of_here|done].
        + intros q Hq Hqs. apply elem_of_app in Hq as [Hq|Hq].
          * exfalso. symmetry in Hok. 
            assert (existsb success (pr_probes result) = true) as Hex.
            { apply existsb_exists. exists q. split; [by apply list_elem_of_In|done]. }
            congruence.
          * apply list_elem_of_singleton in Hq as ->. lia. }
    cbn [pr_reachable pr_rtt_ms pr_ttl pr_probes] in *.
    destruct stop; [exact Hnew|]. by apply IH.
  - (* no reply *)
    apply IH. split; [|split]; cbn [pr_probes pr_rtt_ms pr_ttl].
    + rewrite existsb_app. cbn. by rewrite Hs, !orb_false_r.
    + done.
    + intros Hany. destruct (Hsome Hany) as ((p & Hin & Hrest) & Hmin). split.
      * exists p. split; [apply elem_of_app; by left|done].
      * intros q Hq Hqs. apply elem_of_app in Hq as [Hq|Hq]; [by apply Hmin|].
        apply list_elem_of_singleton in Hq as ->. congruence.
Qed.

(** The probes recorded are the first [j] attempts, in order. *)
Lemma ping_host_loop_probes once stop n : forall i result any_ok,
  exists j,
    (j <= n)%nat /\ (0 < n -> 0 < j)%nat /\ (stop = false -> j = n) /\
    pr_probes (fst (ping_host_loop once stop n i result any_ok))
      = pr_probes result ++ map once (seq i j) /\
    (stop = true ->
     forall a, (a + 1 < j)%nat -> success (once (i + a)%nat) = false) /\
    ((j < n)%nat -> (0 < j)%nat /\ success (once (i + j - 1)%nat) = true).
Proof.
  induction n as [|n IH]; intros i result any_ok.
  - exists 0%nat. cbn. rewrite app_nil_r.
    split; [lia|]. split; [lia|]. split; [done|]. split; [done|].
    split; [intros _ a Ha; lia | lia].
  - cbn [ping_host_loop].
    set (pushed := {| pr_reachable := pr_reachable result;
                      pr_rtt_ms := pr_rtt_ms result; pr_ttl := pr_ttl result;
                      pr_probes := pr_probes result ++ [once i] |}).
    destruct (success (once i)) eqn:Hs.
    + destruct stop.
      * exists 1%nat. cbn [fst].
        split; [lia|]. split; [lia|]. split; [done|]. split; [|split].
        -- subst pushed. by destruct (negb any_ok || _).
        -- intros _ a Ha. lia.
        -- intros _. split; [lia|].
           replace (i + 1 - 1)%nat with i by lia. exact Hs.
      * match goal with |- context [ping_host_loop once false n (S i) ?r true] =>
          destruct (IH (S i) r true) as (j & Hj & Hpos & Hall & Hp & Hstop & _) end.
        exists (S j).
        split; [lia|]. split; [lia|]. split; [by rewrite Hall|].
        split; [|split; [done|]].
        -- rewrite Hp. cbn [seq map]. subst pushed.
           destruct (negb any_ok || _); cbn [pr_probes]; by rewrite <- app_assoc.
        -- rewrite Hall by done. lia.
    + destruct (IH (S i) pushed any_ok)
        as (j & Hj & Hpos & Hall & Hp & Hstop & Hearly).
      exists (S j).
      split; [lia|]. split; [lia|]. split; [intros E; by rewrite Hall|].
      split; [|split].
      * rewrite Hp. cbn [seq map pushed pr_probes]. by rewrite <- app_assoc.
      * intros E a Ha. destruct a as [|a]; [by rewrite Nat.add_0_r|].
        replace (i + S a)%nat with (S i + a)%nat by lia.
        apply Hstop; [done|lia].
      * intros Hlt. destruct (Hearly ltac:(lia)) as [Hj0 Hlast].
        split; [lia|].
        by replace (i + S j - 1)%nat with (S i + j - 1)%nat by lia.
Qed.

(** X16 — the best reply.  [ping_host] reports the host reachable exactly
    when one of the probes it recorded succeeded; then its [rtt_ms] and
    [ttl] are those of a recorded successful probe and no recorded
    successful probe was faster; otherwise both stay -1. *)
Theorem ping_host_reports_best_reply once retries stop :
  let r := ping_host once retries stop in
  pr_reachable r = existsb success (pr_probes r) /\
  (pr_reachable r = false -> pr_rtt_ms r = -1 /\ pr_ttl r = -1) /\
  (pr_reachable r = true ->
   (exists p, p ∈ pr_probes r /\ success p = true /\
              rtt_ms p = pr_rtt_ms r /\ ttl p = pr_ttl r) /\
   (forall p, p ∈ pr_probes r -> success p = true -> pr_rtt_ms r <= rtt_ms p)).
Proof.
  cbv zeta. unfold ping_host.
  pose proof (ping_host_loop_inv once stop (Z.to_nat (Z.max 1 retries)) 0
                empty_ping_result false) as Hinv.
  destruct (ping_host_loop _ _ _ _ _ _) as [result any_ok].
  cbn [fst snd pr_reachable pr_rtt_ms pr_ttl pr_probes] in *.
  apply Hinv. split; [reflexivity|]. split; [done|discriminate].
Qed.

Lemma ping_host_reports_best_reply_witness :
  pr_reachable (ping_host sample_once 3 false) = true /\
  forall p, p ∈ pr_probes (ping_host sample_once 3 false) ->
            success p = true -> 9 <= rtt_ms p.
Proof.
  destruct (ping_host_reports_best_reply sample_once 3 false) as (_ & _ & H).
  split; [reflexivity|]. exact (proj2 (H eq_refl)).
Defined.

(** X17 — how many probes.  [ping_host] makes at least one attempt and at
    most [max(1, retries)], and records their results in order.  Without
    [stop_on_first_success] it makes them all; with it, every recorded
    probe but the last failed, and if it stopped early the last one
    succeeded. *)
Theorem ping_host_attempts once retries stop :
  exists j,
    1 <= Z.of_nat j <= Z.max 1 retries /\
    pr_probes (ping_host once retries stop) = map once (seq 0 j) /\
    (stop = false -> Z.of_nat j = Z.max 1 retries) /\
    (stop = true -> forall a, (a + 1 < j)%nat -> success (once a) = false) /\
    (Z.of_nat j < Z.max 1 retries -> success (once (j - 1)%nat) = true).
Proof.
  unfold ping_host.
  destruct (ping_host_loop_probes once stop (Z.to_nat (Z.max 1 retries)) 0
              empty_ping_result false)
    as (j & Hj & Hpos & Hall & Hp & Hstop & Hearly).
  destruct (ping_host_loop _ _ _ _ _ _) as [result any_ok].
  cbn [fst pr_probes] in *.
  exists j. split; [lia|]. split; [exact Hp|]. split; [|split].
  - intros E. rewrite (Hall E). lia.
  - intros E a Ha. by apply (Hstop E a).
  - intros Hlt. destruct (Hearly ltac:(lia)) as [_ Hlast]. exact Hlast.
Qed.

(** ** [run_ping]: merging the attempts *)

Lemma merge_attempts_snoc attempts a :
  merge_attempts (attempts ++ [a]) = merge_attempt (merge_attempts attempts) a.
Proof. unfold merge_attempts. by rewrite foldl_app. Qed.

(** X18 — what [run_ping] keeps of its attempts.  If no attempt reached the
    host, the merged result holds the probes of all attempts.  Otherwise it
    is the first attempt with the smallest round-trip time, and since that
    attempt was assigned over the accumulated result, its probe list holds
    the probes of that attempt and of the attempts after it only: those of
    the earlier attempts are gone. *)
Theorem merge_attempts_keeps attempts :
  (existsb pr_reachable attempts = false /\
   merge_attempts attempts =
     {| pr_reachable := false; pr_rtt_ms := -1; pr_ttl := -1;
        pr_probes := concat (map pr_probes attempts) |})
  \/
  (exists earlier best later,
      attempts = earlier ++ best :: later /\
      pr_reachable best = true /\
      (forall b, b ∈ earlier -> pr_reachable b = true ->
                 pr_rtt_ms best < pr_rtt_ms b) /\
      (forall b, b ∈ later -> pr_reachable b = true ->
                 pr_rtt_ms best <= pr_rtt_ms b) /\
      merge_attempts attempts =
        {| pr_reachable := true; pr_rtt_ms := pr_rtt_ms best;
           pr_ttl := pr_ttl best;
           pr_probes := pr_probes best ++ concat (map pr_probes later) |}).
Proof.
  induction attempts as [|a attempts IH] using rev_ind.
  - left. split; reflexivity.
  - rewrite merge_attempts_snoc.
    destruct IH as [[Hnone Hm]|(earlier & best & later & -> & Hb & Hlt & Hle & Hm)];
      rewrite Hm; unfold merge_attempt; cbn [pr_reachable pr_rtt_ms pr_ttl pr_probes].
    + destruct (pr_reachable a) eqn:Ha.
      * right. exists attempts, a, []. cbn [negb orb map concat].
        rewrite app_nil_r. split; [done|]. split; [done|]. split.
        -- intros b Hin Hbr. exfalso.
           assert (existsb pr_reachable attempts = true) as Hex.
           { apply existsb_exists. exists b.
             split; [by apply list_elem_of_In|done]. }
           congruence.
        -- split; [intros b Hin; by apply elem_of_nil in Hin|].
           destruct a; cbn in *; subst; by rewrite ?app_nil_r.
      * left. rewrite existsb_app. cbn. rewrite Hnone, Ha. split; [done|].
        by rewrite map_app, concat_app; cbn; rewrite app_nil_r.
    + cbn [negb orb]. destruct (pr_reachable a) eqn:Ha.
      * destruct (Z.ltb_spec (pr_rtt_ms a) (pr_rtt_ms best)) as [Hnew|Hold].
        -- right. exists (earlier ++ best :: later), a, [].
           cbn [map concat]. rewrite app_nil_r.
           split; [done|]. split; [done|]. split.
           ++ intros b Hin Hbr. apply elem_of_app in Hin as [Hin|Hin].
              ** specialize (Hlt b Hin Hbr). lia.
              ** apply elem_of_cons in Hin as [->|Hin]; [done|].
                 specialize (Hle b Hin Hbr). lia.
           ++ split; [intros b Hin; by apply elem_of_nil in Hin|].
              destruct a; cbn in *; subst; by rewrite ?app_nil_r.
        -- right. exists earlier, best, (later ++ [a]).
           split; [by rewrite <- app_assoc|]. split; [done|]. split; [done|]. split.
           ++ intros b Hin Hbr. apply elem_of_app in Hin as [Hin|Hin]; [auto|].
              apply list_elem_of_singleton in Hin as ->. lia.
           ++ rewrite map_app, concat_app. cbn. by rewrite app_nil_r, app_assoc.
      * right. exists earlier, best, (later ++ [a]).
        split; [by rewrite <- app_assoc|]. split; [done|]. split; [done|]. split.
        -- intros b Hin Hbr. apply elem_of_app in Hin as [Hin|Hin]; [auto|].
           apply list_elem_of_singleton in Hin as ->. congruence.
        -- rewrite map_app, concat_app. cbn. by rewrite app_nil_r, app_assoc.
Qed.

(** ** Probes that never reach the engine path *)

Lemma local_ping_log hst dst payload_size ttl_opt io st :
  g_sock (snd (local_ping hst dst payload_size ttl_opt io st)) = g_sock st /\
  g_running (snd (local_ping hst dst payload_size ttl_opt io st)) = g_running st /\
  (net_log (snd (local_ping hst dst payload_size ttl_opt io st)) = net_log st \/
   net_log (snd (local_ping hst dst payload_size ttl_opt io st))
     = LocalEcho dst :: net_log st).
Proof.
  unfold local_ping, fetch_add_seq. repeat case_match; cbn; auto.
Qed.

(** X19 — invalid and local destinations bypass the engine.  A probe whose
    destination does not parse, or is one of the host's own addresses,
    returns without waiting; it registers nothing (table and shared states
    are untouched), leaves the engine socket and its TTL option alone, and
    hands nothing to [sendto] on the engine socket: at most one echo goes
    out through the local fast path. *)
Theorem probe_off_the_engine_path hst ip timeout_ms payload_size ttl_opt io st :
  (inet_pton hst ip = None \/
   exists dst, inet_pton hst ip = Some dst /\ is_local_ipv4_addr hst dst = true) ->
  let res := ping_begin hst ip timeout_ms payload_size ttl_opt io st in
  (forall w, fst res <> Awaiting w) /\
  g_waiters (snd res) = g_waiters st /\
  heap (snd res) = heap st /\
  g_sock (snd res) = g_sock st /\
  g_running (snd res) = g_running st /\
  (net_log (snd res) = net_log st \/
   exists dst, net_log (snd res) = LocalEcho dst :: net_log st).
Proof.
  intros [Hip|(dst & Hip & Hloc)]; cbv zeta; unfold ping_begin; rewrite Hip.
  - cbn [fst snd]. repeat split; try done. by left.
  - rewrite Hloc.
    destruct (local_ping_frame hst dst payload_size ttl_opt io st) as (Ht & Hh & Hw).
    destruct (local_ping_log hst dst payload_size ttl_opt io st) as (Hs & Hr & Hl).
    repeat split; try done.
    destruct Hl as [Hl|Hl]; [by left|right; eauto].
Qed.

Lemma probe_off_the_engine_path_witness :
  g_waiters (snd (ping_begin (sample_host Linux) "127.0.0.1" 1000 0 (-1) sample_io
                    (sample_running Linux)))
  = g_waiters (sample_running Linux).
Proof.
  refine (proj1 (proj2 (probe_off_the_engine_path (sample_host Linux) "127.0.0.1"
                          1000 0 (-1) sample_io (sample_running Linux) _))).
  right. exists 16777343. split; reflexivity.
Defined.

(** ** [shutdown_engine] twice *)

(** X20 — shutting down twice.  A second [shutdown_engine] changes nothing:
    the first left the table empty, so the second finds no promise to
    resolve or to break. *)
Theorem shutdown_engine_idempotent hst st :
  shutdown_engine hst (shutdown_engine hst st) = shutdown_engine hst st.
Proof.
  unfold shutdown_engine at 1.
  change (g_waiters (shutdown_engine hst st)) with (∅ : gmap Key nat).
  rewrite map_to_list_empty. reflexivity.
Qed.
